(** * The game core of node 2: a shallow embedding of [src/node2/game.c]

    The C module keeps its state in file-scope statics and talks to the
    motor, servo, solenoid, ADC, micro:bit and CAN drivers through plain
    function calls.  The embedding threads the statics through a small
    state monad and logs every driver call, together with the value of the
    statics at the moment of the call, so that both the final state of a
    tick and the order in which things happen inside it can be stated. *)

From Stdlib Require Import ZArith List Bool Lia.
Import ListNotations.
Local Open Scope Z_scope.

(** ** Machine integers

    The target is a SAM3X (Cortex-M3, ILP32): [unsigned int] and [int] are
    32 bits wide, [uint16_t] 16 and a CAN data byte 8.  Integers are [Z]
    with the conversion written out.  Signed overflow is undefined in C;
    [int32] wraps the way the core does, and the statements about signed
    results also say what they are when nothing overflows. *)

Definition uint32 (z : Z) : Z := z mod 2 ^ 32.
Definition uint16 (z : Z) : Z := z mod 2 ^ 16.
Definition uint8 (z : Z) : Z := z mod 2 ^ 8.
Definition int32 (z : Z) : Z := (z + 2 ^ 31) mod 2 ^ 32 - 2 ^ 31.

Definition is_uint32 (z : Z) : Prop := 0 <= z < 2 ^ 32.
Definition is_int32 (z : Z) : Prop := - 2 ^ 31 <= z < 2 ^ 31.

(** ** The macros of game.c *)

Definition IR_TRESHOLD : Z := 1000.
Definition NUMBER_OF_LIVES : Z := 3.

Definition K_P_HARD : Z := 35.
Definition K_I_HARD : Z := 20.
Definition K_D_HARD : Z := 1.
Definition K_P_EXTREME : Z := 20.
Definition K_I_EXTREME : Z := 10.
Definition K_D_EXTREME : Z := 1.
Definition K_P_IMPOSSIBLE : Z := 40.
Definition K_I_IMPOSSIBLE : Z := 25.
Definition K_D_IMPOSSIBLE : Z := 1.

Definition MB_SPEED_HARD : Z := 0x4FF.
Definition MB_SPEED_EXTREME : Z := 0x3FF.
Definition MB_SPEED_IMPOSSIBLE : Z := 0x4FF.

Definition MAX_MOTOR_SPEED : Z := 0x4FF.

(** ** Enumerations

    game.h, microbit.h and their enumerator values are not part of the
    sources.  A C enum object can hold any value of its underlying integer
    type, so each enumeration gets one more constructor for a value that is
    none of the enumerators game.c names: that is what reaches the
    [default:] arms and the fall-through of the [if] chains. *)

Inductive CONTROLLER_SEL : Type :=
| SLIDER_POS_CTRL
| JOYSTICK_SPEED_CTRL
| MICROBIT_SPEED_CTRL
| CONTROLLER_SEL_other (v : Z).

Inductive DIFFICULTY : Type :=
| HARD
| EXTREME
| IMPOSSIBLE
| DIFFICULTY_other (v : Z).

Inductive ACC_DIR : Type :=
| ACC_LEFT
| ACC_RIGHT
| ACC_DIR_other (v : Z).

(** [difficulty_select == IMPOSSIBLE] *)
Definition is_IMPOSSIBLE (d : DIFFICULTY) : bool :=
  match d with
  | IMPOSSIBLE => true
  | _ => false
  end.

(** ** Data *)

(** [struct user_input_data]: six [int] fields. *)
Record user_input_data : Type := mk_user_input_data {
  joystick_x : Z;
  joystick_y : Z;
  slider_left : Z;
  slider_right : Z;
  button_left : Z;
  button_right : Z
}.

(** Modelled from the spec: the struct CAN_MESSAGE of can/can_controller.h
    is not part of the sources.  The spec describes the record as a fixed
    identifier tag and a 1-byte payload; [data] holds the [data_length]
    payload bytes. *)
Record CAN_MESSAGE : Type := mk_CAN_MESSAGE {
  id : Z;
  data_length : Z;
  data : list Z
}.

(** The file-scope statics of game.c. *)
Record game_state : Type := mk_game_state {
  score : Z;
  lives_left : Z;
  counting_flag : Z;
  controller_select : CONTROLLER_SEL;
  difficulty_select : DIFFICULTY;
  user_data : user_input_data
}.

(** The statics as the C start-up code leaves them: zero, except for the
    two with an initialiser. *)
Definition power_on : game_state :=
  {| score := 0;
     lives_left := 0;
     counting_flag := 0;
     controller_select := SLIDER_POS_CTRL;
     difficulty_select := HARD;
     user_data := mk_user_input_data 0 0 0 0 0 0 |}.

Definition set_score (v : Z) (g : game_state) : game_state :=
  mk_game_state v (lives_left g) (counting_flag g)
    (controller_select g) (difficulty_select g) (user_data g).

Definition set_lives_left (v : Z) (g : game_state) : game_state :=
  mk_game_state (score g) v (counting_flag g)
    (controller_select g) (difficulty_select g) (user_data g).

Definition set_counting_flag (v : Z) (g : game_state) : game_state :=
  mk_game_state (score g) (lives_left g) v
    (controller_select g) (difficulty_select g) (user_data g).

Definition set_controller_select (c : CONTROLLER_SEL) (g : game_state)
  : game_state :=
  mk_game_state (score g) (lives_left g) (counting_flag g)
    c (difficulty_select g) (user_data g).

Definition set_difficulty_select (d : DIFFICULTY) (g : game_state)
  : game_state :=
  mk_game_state (score g) (lives_left g) (counting_flag g)
    (controller_select g) d (user_data g).

Definition set_user_data (u : user_input_data) (g : game_state)
  : game_state :=
  mk_game_state (score g) (lives_left g) (counting_flag g)
    (controller_select g) (difficulty_select g) u.

(** ** Driver calls

    One constructor per external function game.c calls.  A call that
    returns a value carries the value it returned.  [pid_controller_init]
    takes the sample time [T = 1.0 / MOTOR_TIMER_FREQ], a floating-point
    value: the call carries the frequency it is computed from.  The three
    [TC0_*] calls stand for the register writes of [game_timer_init],
    [game_timer_enable] and [game_timer_disable]. *)
Inductive call : Type :=
| adc_init
| servo_init
| motor_init
| solenoid_init
| microbit_init
| motor_set_microbit_speed (speed : Z)
| pid_controller_init (k_p k_i k_d freq max_u : Z)
| pid_controller_set_parameters (k_p k_i k_d : Z)
| adc_read (ret : Z)
| microbit_dir (ret : ACC_DIR)
| microbit_button (ret : Z)
| motor_run_slider (target : Z)
| motor_run_joystick (speed : Z)
| motor_run_microbit (direction : ACC_DIR)
| servo_set_position (position : Z)
| solenoid_run_button (button : Z)
| can_send (m : CAN_MESSAGE) (tx_buffer : Z)
| TC0_configure
| TC0_enable
| TC0_disable.

(** What the sensor drivers answer during one tick. *)
Record sensors : Type := mk_sensors {
  adc_level : Z;
  acc_direction : ACC_DIR;
  acc_button : Z
}.

(** ** The state monad

    A computation runs on the statics and the log of driver calls made so
    far; each log entry pairs the call with the statics at that moment. *)
Record machine : Type := mk_machine {
  globals : game_state;
  trace : list (call * game_state)
}.

Definition M (A : Type) : Type := machine -> A * machine.

Definition ret {A : Type} (a : A) : M A := fun m => (a, m).

Definition bind {A B : Type} (c : M A) (k : A -> M B) : M B :=
  fun m => let (a, m') := c m in k a m'.

Notation "x <- c ;; k" := (bind c (fun x => k))
  (at level 61, c at next level, right associativity).
Notation "c ;; k" := (bind c (fun _ => k))
  (at level 61, right associativity).

Definition get : M game_state := fun m => (globals m, m).

Definition modify (f : game_state -> game_state) : M unit :=
  fun m => (tt, mk_machine (f (globals m)) (trace m)).

Definition extern (c : call) : M unit :=
  fun m => (tt, mk_machine (globals m) (trace m ++ [(c, globals m)])).

Definition exec {A : Type} (c : M A) (m : machine) : machine := snd (c m).
Definition eval {A : Type} (c : M A) (m : machine) : A := fst (c m).

(** A machine that starts logging at statics [g]. *)
Definition boot (g : game_state) : machine := mk_machine g [].

(** The calls of a log, without the statics. *)
Definition calls (m : machine) : list call := map fst (trace m).

(** Modelled from the spec: the macro INITIAL_LIVES that
    [game_reset_lives_left] stores is defined in a header that is not part
    of the sources.  The spec calls it the configured initial life count,
    the same count [initialize()] sets, 3 in its scenario. *)
Definition INITIAL_LIVES_configured : Z := 3.

(** A tick's sensor answers when only the infrared level matters. *)
Definition ir_only (level : Z) : sensors :=
  mk_sensors level (ACC_DIR_other 0) 0.

(** The statics of the scenario of the spec: three lives, difficulty Hard,
    slider mode, right slider at 80, detector armed. *)
Definition scenario_state : game_state :=
  {| score := 0;
     lives_left := 3;
     counting_flag := 0;
     controller_select := SLIDER_POS_CTRL;
     difficulty_select := HARD;
     user_data := mk_user_input_data 0 0 0 80 0 0 |}.

(** [--lives_left] on an [unsigned int]. *)
Definition lose_life (lives : Z) : Z := uint32 (lives - 1).

Section GameCore.

(** Macros and functions declared in headers that are not part of the
    sources: [SLIDER_MAX] and the four scaling functions
    (user_input_scaling.h), [GAME_LIVES_LEFT_ID] (the CAN identifier of
    the lives message), [MOTOR_TIMER_FREQ] and [INITIAL_LIVES]. *)
Variables SLIDER_MAX GAME_LIVES_LEFT_ID MOTOR_TIMER_FREQ INITIAL_LIVES : Z.
Variables joystick_scale_x joystick_scale_y : Z -> Z.
Variables slider_scale_left slider_scale_right : Z -> Z.

Definition game_timer_init : M unit := extern TC0_configure.

Definition game_init : M unit :=
  modify (set_score 0) ;;
  modify (set_lives_left (uint32 NUMBER_OF_LIVES)) ;;
  extern adc_init ;;
  extern servo_init ;;
  extern motor_init ;;
  extern (motor_set_microbit_speed MB_SPEED_HARD) ;;
  extern solenoid_init ;;
  extern microbit_init ;;
  extern (pid_controller_init K_P_HARD K_I_HARD K_D_HARD
            MOTOR_TIMER_FREQ MAX_MOTOR_SPEED) ;;
  game_timer_init.

(** [level] is what [adc_read] returns; [ir_level] is a [uint16_t]. *)
Definition game_count_fails (level : Z) : M Z :=
  extern (adc_read level) ;;
  let ir_level := uint16 level in
  g <- get ;;
  if (ir_level <? IR_TRESHOLD) && (counting_flag g =? 0) then
    modify (set_lives_left (lose_life (lives_left g))) ;;
    modify (set_counting_flag 1) ;;
    ret 1
  else if ir_level >? IR_TRESHOLD then
    modify (set_counting_flag 0) ;;
    ret 0
  else
    ret 0.

Definition game_set_controller (controller : CONTROLLER_SEL) : M unit :=
  modify (set_controller_select controller).

Definition game_set_difficulty (difficulty : DIFFICULTY) : M unit :=
  match difficulty with
  | HARD =>
      extern (pid_controller_set_parameters K_P_HARD K_I_HARD K_D_HARD) ;;
      extern (motor_set_microbit_speed MB_SPEED_HARD)
  | EXTREME =>
      extern (pid_controller_set_parameters
                K_P_EXTREME K_I_EXTREME K_D_EXTREME) ;;
      extern (motor_set_microbit_speed MB_SPEED_EXTREME)
  | IMPOSSIBLE =>
      extern (pid_controller_set_parameters
                K_P_IMPOSSIBLE K_I_IMPOSSIBLE K_D_IMPOSSIBLE) ;;
      extern (motor_set_microbit_speed MB_SPEED_IMPOSSIBLE)
  | DIFFICULTY_other _ => ret tt
  end ;;
  modify (set_difficulty_select difficulty).

(** [data] is the frame received from node 1, read through a [char*];
    [char] is unsigned on this target.  Bytes past the end of the list
    read as 0 here (the caller hands over a full frame). *)
Definition game_set_user_data (data : list Z) : M unit :=
  let byte (i : nat) := uint8 (nth i data 0) in
  modify (set_user_data
    {| joystick_x := int32 (joystick_scale_x (byte 0%nat));
       joystick_y := int32 (joystick_scale_y (byte 1%nat));
       slider_left := int32 (slider_scale_left (byte 2%nat));
       slider_right := int32 (slider_scale_right (byte 3%nat));
       button_left := byte 4%nat;
       button_right := byte 5%nat |}).

Definition game_run (env : sensors) : M unit :=
  g <- get ;;
  let u := user_data g in
  match controller_select g with
  | SLIDER_POS_CTRL =>
      (if is_IMPOSSIBLE (difficulty_select g) then
         extern (motor_run_slider (int32 (SLIDER_MAX - slider_right u)))
       else
         extern (motor_run_slider (slider_right u))) ;;
      extern (servo_set_position (joystick_x u)) ;;
      extern (solenoid_run_button (button_right u))
  | JOYSTICK_SPEED_CTRL =>
      (if is_IMPOSSIBLE (difficulty_select g) then
         extern (motor_run_joystick (int32 (- joystick_x u)))
       else
         extern (motor_run_joystick (joystick_x u))) ;;
      extern (servo_set_position
                (int32 (2 * int32 (slider_right u - 50)))) ;;
      extern (solenoid_run_button (button_right u))
  | MICROBIT_SPEED_CTRL =>
      extern (microbit_dir (acc_direction env)) ;;
      let direction := acc_direction env in
      let direction :=
        if is_IMPOSSIBLE (difficulty_select g) then
          match direction with
          | ACC_RIGHT => ACC_LEFT
          | ACC_LEFT => ACC_RIGHT
          | ACC_DIR_other _ => direction
          end
        else direction in
      extern (motor_run_microbit direction) ;;
      extern (servo_set_position (joystick_x u)) ;;
      extern (microbit_button (acc_button env)) ;;
      extern (solenoid_run_button (acc_button env))
  | CONTROLLER_SEL_other _ => ret tt
  end ;;
  failed <- game_count_fails (adc_level env) ;;
  (if negb (failed =? 0) then
     g' <- get ;;
     extern (can_send
               {| id := GAME_LIVES_LEFT_ID;
                  data_length := 1;
                  data := [uint8 (lives_left g')] |} 0)
   else ret tt) ;;
  g'' <- get ;;
  modify (set_score (uint32 (score g'' + 1))).

Definition game_timer_enable : M unit := extern TC0_enable.

Definition game_timer_disable : M unit := extern TC0_disable.

(** The return type is [int]: the unsigned score is converted. *)
Definition game_get_score : M Z :=
  g <- get ;; ret (int32 (score g)).

Definition game_reset_score : M unit := modify (set_score 0).

Definition game_reset_lives_left : M unit :=
  modify (set_lives_left (uint32 INITIAL_LIVES)).

(** A sequence of ticks, one [game_run] per timer interrupt. *)
Fixpoint game_ticks (envs : list sensors) : M unit :=
  match envs with
  | [] => ret tt
  | env :: envs' => game_run env ;; game_ticks envs'
  end.

(** *** Views used by the statements *)

(** One tick from statics [g], logged from an empty log. *)
Definition tick (env : sensors) (g : game_state) : machine :=
  exec (game_run env) (boot g).

(** A sequence of ticks from statics [g]. *)
Definition ticks (envs : list sensors) (g : game_state) : machine :=
  exec (game_ticks envs) (boot g).

(** The statics after, and the result of, one [game_count_fails]. *)
Definition detector_step (level : Z) (g : game_state) : game_state :=
  globals (exec (game_count_fails level) (boot g)).

Definition detector_result (level : Z) (g : game_state) : Z :=
  eval (game_count_fails level) (boot g).

Definition is_can_send (c : call) : bool :=
  match c with
  | can_send _ _ => true
  | _ => false
  end.

Definition is_motor_call (c : call) : bool :=
  match c with
  | motor_run_slider _ | motor_run_joystick _ | motor_run_microbit _ => true
  | _ => false
  end.

(** A command to the motor, the servo or the solenoid. *)
Definition is_actuation (c : call) : bool :=
  match c with
  | motor_run_slider _ | motor_run_joystick _ | motor_run_microbit _
  | servo_set_position _ | solenoid_run_button _ => true
  | _ => false
  end.

(** A call of the mode switch: an actuator command or one of the two
    micro:bit reads that feed it. *)
Definition is_dispatch (c : call) : bool :=
  match c with
  | microbit_dir _ | microbit_button _ => true
  | _ => is_actuation c
  end.

Definition notifications (m : machine) : list call :=
  filter is_can_send (calls m).

Definition motor_calls (m : machine) : list call :=
  filter is_motor_call (calls m).

Definition actuation_calls (m : machine) : list call :=
  filter is_actuation (calls m).

(** The record [game_run] sends for [lives] lives left. *)
Definition lives_message (lives : Z) : call :=
  can_send {| id := GAME_LIVES_LEFT_ID;
              data_length := 1;
              data := [uint8 lives] |} 0.

(** The detector as the spec names its two states. *)
Definition armed (g : game_state) : bool := counting_flag g =? 0.
Definition latched (g : game_state) : bool := negb (armed g).

(** The level the detector compares, against the threshold. *)
Definition below (level : Z) : bool := uint16 level <? IR_TRESHOLD.
Definition above (level : Z) : bool := uint16 level >? IR_TRESHOLD.

(** Number of runs of consecutive below-threshold levels in [levels];
    [prev] tells whether the level just before the list was below the
    threshold (the list then starts inside a run). *)
Fixpoint below_runs (prev : bool) (levels : list Z) : nat :=
  match levels with
  | [] => 0%nat
  | l :: levels' =>
      ((if below l && negb prev then 1 else 0)
       + below_runs (below l) levels')%nat
  end.

(** The levels that are not exactly at the threshold. *)
Definition off_threshold (levels : list Z) : list Z :=
  filter (fun l => below l || above l) levels.

(** The run property as the specification words it: from an armed
    detector, every run of consecutive below-threshold levels, counted
    in the levels as they come, takes exactly one life. *)
Definition one_life_per_consecutive_run : Prop :=
  forall envs g,
    armed g = true ->
    lives_left (globals (ticks envs g))
    = Nat.iter (below_runs false (map adc_level envs)) lose_life
        (lives_left g).

(** The log entries of a tick that come before its [adc_read]. *)
Fixpoint before_adc_read (t : list (call * game_state))
  : list (call * game_state) :=
  match t with
  | [] => []
  | (adc_read _, _) :: _ => []
  | e :: t' => e :: before_adc_read t'
  end.

(** The order of a tick as the specification words it: the failure
    detector (its [adc_read]) comes first in the log, and a notification
    is sent when the score is already incremented. *)
Definition detection_first (m : machine) : Prop :=
  exists level g t, trace m = (adc_read level, g) :: t.

Definition score_before_notification (g0 : game_state) (m : machine)
  : Prop :=
  forall msg buf g,
    In (can_send msg buf, g) (trace m) -> score g = uint32 (score g0 + 1).

(** *** The module as its users drive it *)

(** One call of a function game.h exports. *)
Inductive command : Type :=
| do_game_init
| do_game_run (env : sensors)
| do_game_set_controller (controller : CONTROLLER_SEL)
| do_game_set_difficulty (difficulty : DIFFICULTY)
| do_game_set_user_data (data : list Z)
| do_game_get_score
| do_game_reset_score
| do_game_reset_lives_left
| do_game_timer_enable
| do_game_timer_disable.

Definition run_command (c : command) : M unit :=
  match c with
  | do_game_init => game_init
  | do_game_run env => game_run env
  | do_game_set_controller controller => game_set_controller controller
  | do_game_set_difficulty difficulty => game_set_difficulty difficulty
  | do_game_set_user_data data => game_set_user_data data
  | do_game_get_score => game_get_score ;; ret tt
  | do_game_reset_score => game_reset_score
  | do_game_reset_lives_left => game_reset_lives_left
  | do_game_timer_enable => game_timer_enable
  | do_game_timer_disable => game_timer_disable
  end.

Fixpoint run_commands (cs : list command) : M unit :=
  match cs with
  | [] => ret tt
  | c :: cs' => run_command c ;; run_commands cs'
  end.

(** The values the C types of the statics can hold: the two counters are
    [unsigned int], the flag is only ever written 0 or 1, the scaled
    inputs are [int] and the two buttons are bytes of the frame. *)
Definition user_data_ok (u : user_input_data) : Prop :=
  is_int32 (joystick_x u) /\ is_int32 (joystick_y u)
  /\ is_int32 (slider_left u) /\ is_int32 (slider_right u)
  /\ 0 <= button_left u < 2 ^ 8 /\ 0 <= button_right u < 2 ^ 8.

Definition statics_ok (g : game_state) : Prop :=
  is_uint32 (score g) /\ is_uint32 (lives_left g)
  /\ (counting_flag g = 0 \/ counting_flag g = 1)
  /\ user_data_ok (user_data g).

(** A logged [can_send] is the lives record: the lives identifier, one
    data byte, transmit buffer 0. *)
Definition is_lives_record (c : call) : Prop :=
  match c with
  | can_send m tx_buffer =>
      id m = GAME_LIVES_LEFT_ID /\ data_length m = 1 /\ tx_buffer = 0
      /\ exists b, data m = [b] /\ 0 <= b < 2 ^ 8
  | _ => True
  end.

(** The calls of the mode switch in a log. *)
Definition dispatch_calls (m : machine) : list call :=
  filter is_dispatch (calls m).

(** The lives records of [n] successive failures from [lives] lives. *)
Definition lives_countdown (lives : Z) (n : nat) : list call :=
  map (fun k => lives_message (Nat.iter k lose_life lives)) (seq 1 n).

(** The snapshot with the three fields [game_run] does not read zeroed. *)
Definition used_inputs (u : user_input_data) : user_input_data :=
  mk_user_input_data (joystick_x u) 0 0 (slider_right u) 0 (button_right u).

(** ** Machine integers: the facts the proofs use *)

Lemma uint32_small (z : Z) : is_uint32 z -> uint32 z = z.
Proof. unfold is_uint32, uint32. intros H. apply Z.mod_small. exact H. Qed.

Lemma uint16_small (z : Z) : 0 <= z < 2 ^ 16 -> uint16 z = z.
Proof. unfold uint16. intros H. apply Z.mod_small. exact H. Qed.

Lemma uint8_small (z : Z) : 0 <= z < 2 ^ 8 -> uint8 z = z.
Proof. unfold uint8. intros H. apply Z.mod_small. exact H. Qed.

Lemma int32_small (z : Z) : is_int32 z -> int32 z = z.
Proof.
  unfold is_int32, int32. intros H.
  rewrite Z.mod_small by lia. lia.
Qed.

Lemma uint32_add_uint32 (a b : Z) : uint32 (uint32 a + b) = uint32 (a + b).
Proof. unfold uint32. apply Zplus_mod_idemp_l. Qed.

(** ** The failure detector, case by case *)

Ltac unfold_monad :=
  unfold tick, ticks, detector_step, detector_result, notifications,
    motor_calls, actuation_calls, calls, lives_message,
    game_run, game_count_fails, game_set_difficulty, game_set_controller,
    game_init, game_timer_init, game_reset_score, game_reset_lives_left,
    exec, eval, boot, bind, get, modify, extern, ret;
  cbn [globals trace fst snd].

Lemma game_count_fails_eq (level : Z) (m : machine) :
  game_count_fails level m =
  (detector_result level (globals m),
   mk_machine (detector_step level (globals m))
     (trace m ++ [(adc_read level, globals m)])).
Proof.
  destruct m as [g t]. unfold_monad.
  destruct ((uint16 level <? IR_TRESHOLD) && (counting_flag g =? 0));
    [reflexivity|].
  destruct (uint16 level >? IR_TRESHOLD); reflexivity.
Qed.

Lemma detector_fail (level : Z) (g : game_state) :
  uint16 level < IR_TRESHOLD -> counting_flag g = 0 ->
  detector_result level g = 1 /\
  detector_step level g =
    set_counting_flag 1 (set_lives_left (lose_life (lives_left g)) g).
Proof.
  intros Hlt Hflag. unfold_monad.
  apply Z.ltb_lt in Hlt. apply Z.eqb_eq in Hflag.
  rewrite Hlt, Hflag. split; reflexivity.
Qed.

Lemma detector_rearm (level : Z) (g : game_state) :
  uint16 level > IR_TRESHOLD ->
  detector_result level g = 0 /\
  detector_step level g = set_counting_flag 0 g.
Proof.
  intros Hgt. unfold_monad.
  assert (Hlt : (uint16 level <? IR_TRESHOLD) = false)
    by (apply Z.ltb_ge; lia).
  assert (Hgt' : (uint16 level >? IR_TRESHOLD) = true)
    by (rewrite Z.gtb_ltb; apply Z.ltb_lt; lia).
  rewrite Hlt, Hgt'. split; reflexivity.
Qed.

Lemma detector_hold (level : Z) (g : game_state) :
  uint16 level <= IR_TRESHOLD ->
  uint16 level = IR_TRESHOLD \/ counting_flag g <> 0 ->
  detector_result level g = 0 /\ detector_step level g = g.
Proof.
  intros Hle Hor. unfold_monad.
  assert (Hgt : (uint16 level >? IR_TRESHOLD) = false)
    by (rewrite Z.gtb_ltb; apply Z.ltb_ge; lia).
  assert (Hand : (uint16 level <? IR_TRESHOLD) && (counting_flag g =? 0)
                 = false).
  { apply andb_false_iff. destruct Hor as [He | Hf].
    - left. apply Z.ltb_ge. lia.
    - right. apply Z.eqb_neq. exact Hf. }
  rewrite Hand, Hgt. destruct g; split; reflexivity.
Qed.

(** ** One tick *)

(** Splits on the three tests of the failure detector. *)
Ltac tick_branches level fl :=
  cbn [is_IMPOSSIBLE controller_select difficulty_select user_data
       counting_flag lives_left score globals trace fst snd
       adc_level acc_direction acc_button];
  destruct (uint16 level <? IR_TRESHOLD);
  destruct (fl =? 0);
  destruct (uint16 level >? IR_TRESHOLD);
  cbn [andb negb Z.eqb globals trace fst snd score lives_left
       counting_flag set_score set_lives_left set_counting_flag
       controller_select difficulty_select user_data].

(** Splits a tick on everything its control flow looks at. *)
Ltac tick_cases g env :=
  destruct env as [level dir btn];
  destruct g as [sc lv fl mode diff u];
  unfold_monad;
  destruct mode; destruct diff; try destruct dir;
  tick_branches level fl.

Lemma game_run_globals (env : sensors) (m : machine) :
  globals (exec (game_run env) m) =
  set_score (uint32 (score (globals m) + 1))
    (detector_step (adc_level env) (globals m)).
Proof.
  destruct m as [g t]. tick_cases g env; reflexivity.
Qed.

Lemma game_run_frame (env : sensors) (m : machine) :
  exec (game_run env) m =
  mk_machine (globals (tick env (globals m)))
    (trace m ++ trace (tick env (globals m))).
Proof.
  destruct m as [g t]. tick_cases g env;
    rewrite <- ?app_assoc; reflexivity.
Qed.

Lemma detector_keeps_score (level : Z) (g : game_state) :
  score (detector_step level g) = score g.
Proof.
  unfold_monad.
  destruct ((uint16 level <? IR_TRESHOLD) && (counting_flag g =? 0));
    [reflexivity|].
  destruct (uint16 level >? IR_TRESHOLD); reflexivity.
Qed.

Lemma tick_notifications (env : sensors) (g : game_state) :
  notifications (tick env g) =
  if below (adc_level env) && armed g
  then [lives_message (lives_left (globals (tick env g)))]
  else [].
Proof.
  unfold below, armed. tick_cases g env; reflexivity.
Qed.

(** ** Sequences of ticks *)

Lemma game_ticks_frame (envs : list sensors) (m : machine) :
  exec (game_ticks envs) m =
  mk_machine (globals (ticks envs (globals m)))
    (trace m ++ trace (ticks envs (globals m))).
Proof.
  revert m. induction envs as [|env envs IH]; intros m.
  - destruct m as [g t]. unfold ticks, exec, boot. cbn.
    rewrite app_nil_r. reflexivity.
  - unfold ticks.
    assert (Hcons : forall m0, exec (game_ticks (env :: envs)) m0 =
              exec (game_ticks envs) (exec (game_run env) m0)).
    { intros m0. unfold exec. cbn [game_ticks]. unfold bind.
      destruct (game_run env m0) as [[] m1]. reflexivity. }
    rewrite !Hcons. rewrite (IH (exec (game_run env) m)).
    rewrite (IH (exec (game_run env) (boot (globals m)))).
    rewrite (game_run_frame env m).
    rewrite (game_run_frame env (boot (globals m))).
    cbn [globals trace boot app]. rewrite app_assoc. reflexivity.
Qed.

Lemma ticks_nil (g : game_state) : ticks [] g = boot g.
Proof. reflexivity. Qed.

Lemma ticks_cons (env : sensors) (envs : list sensors) (g : game_state) :
  ticks (env :: envs) g =
  mk_machine (globals (ticks envs (globals (tick env g))))
    (trace (tick env g) ++ trace (ticks envs (globals (tick env g)))).
Proof.
  unfold ticks at 1. unfold exec. cbn [game_ticks]. unfold bind.
  destruct (game_run env (boot g)) as [[] m1] eqn:Hrun.
  change (snd (game_ticks envs m1)) with (exec (game_ticks envs) m1).
  rewrite game_ticks_frame.
  unfold tick, exec. rewrite Hrun. reflexivity.
Qed.

Lemma ticks_app (envs1 envs2 : list sensors) (g : game_state) :
  ticks (envs1 ++ envs2) g =
  mk_machine (globals (ticks envs2 (globals (ticks envs1 g))))
    (trace (ticks envs1 g) ++ trace (ticks envs2 (globals (ticks envs1 g)))).
Proof.
  revert g. induction envs1 as [|env envs1 IH]; intros g.
  - cbn [app]. rewrite ticks_nil. cbn [boot globals trace app].
    destruct (ticks envs2 g); reflexivity.
  - cbn [app]. rewrite !ticks_cons. rewrite IH.
    cbn [globals trace]. rewrite app_assoc. reflexivity.
Qed.

Lemma notifications_cons (env : sensors) (envs : list sensors)
  (g : game_state) :
  notifications (ticks (env :: envs) g) =
  notifications (tick env g)
  ++ notifications (ticks envs (globals (tick env g))).
Proof.
  rewrite ticks_cons. unfold notifications, calls. cbn [trace].
  rewrite map_app, filter_app. reflexivity.
Qed.

Lemma ticks_score (envs : list sensors) (g : game_state) :
  score (globals (ticks envs g)) =
  Nat.iter (length envs) (fun sc => uint32 (sc + 1)) (score g).
Proof.
  revert g. induction envs as [|env envs IH]; intros g.
  - reflexivity.
  - rewrite ticks_cons. cbn [globals length]. rewrite IH.
    rewrite Nat.iter_succ_r. f_equal.
    unfold tick. rewrite game_run_globals. cbn [boot globals].
    destruct (detector_step (adc_level env) g) eqn:Hd.
    cbn [set_score score]. reflexivity.
Qed.

Lemma iter_incr_uint32 (n : nat) (sc : Z) :
  Nat.iter (S n) (fun x => uint32 (x + 1)) sc
  = uint32 (sc + Z.of_nat (S n)).
Proof.
  induction n as [|n IH].
  - reflexivity.
  - rewrite Nat.iter_succ, IH, uint32_add_uint32.
    f_equal. lia.
Qed.

(** ** The claims about a single tick *)

(** C2.  Every call of [game_run] increments the score by one, as an
    [unsigned int]: the new score is [score + 1] modulo 2^32, hence
    exactly [score + 1] below the last value.  This is so for every
    sensor answer, every difficulty and every mode; with a stored mode
    that is none of the three enumerators the tick commands no actuator,
    and still reads the sensor, runs the failure detector and counts.
    Over any sequence of ticks the score goes up by one per tick. *)
Theorem game_run_increments_score (env : sensors) (g : game_state) :
  score (globals (tick env g)) = uint32 (score g + 1)
  /\ (is_uint32 (score g) -> score g <> 2 ^ 32 - 1 ->
      score (globals (tick env g)) = score g + 1)
  /\ (forall v, controller_select g = CONTROLLER_SEL_other v ->
        actuation_calls (tick env g) = []
        /\ calls (tick env g)
           = adc_read (adc_level env) :: notifications (tick env g)
        /\ globals (tick env g)
           = set_score (uint32 (score g + 1))
               (detector_step (adc_level env) g))
  /\ (forall envs,
        score (globals (ticks envs g))
        = Nat.iter (length envs) (fun sc => uint32 (sc + 1)) (score g))
  /\ (forall envs, envs <> [] ->
        score (globals (ticks envs g))
        = uint32 (score g + Z.of_nat (length envs))).
Proof.
  assert (Hscore : score (globals (tick env g)) = uint32 (score g + 1)).
  { unfold tick. rewrite game_run_globals. cbn [boot globals].
    destruct (detector_step (adc_level env) g); reflexivity. }
  split; [exact Hscore|].
  split.
  { intros Hr Hmax. rewrite Hscore. apply uint32_small.
    unfold is_uint32 in *. lia. }
  split.
  { intros v Hmode. split; [|split].
    - revert Hmode. tick_cases g env; intros Hmode;
        try discriminate Hmode; reflexivity.
    - revert Hmode. tick_cases g env; intros Hmode;
        try discriminate Hmode; reflexivity.
    - unfold tick. rewrite game_run_globals. reflexivity. }
  split.
  { intros envs. apply ticks_score. }
  intros envs Hne. rewrite ticks_score.
  destruct envs as [|e envs]; [congruence|].
  cbn [length]. apply iter_incr_uint32.
Qed.

(** C5.  The comparisons of [game_count_fails] are strict both ways.
    It reports a failure exactly when the level is strictly below the
    threshold and the flag is clear, and only then takes a life; a
    latched detector is re-armed exactly when the level is strictly
    above the threshold; at a level equal to the threshold it reports
    no failure and leaves the statics, flag and lives included, as they
    were. *)
Theorem game_count_fails_strict (level : Z) (g : game_state) :
  (detector_result level g <> 0 <->
     uint16 level < IR_TRESHOLD /\ counting_flag g = 0)
  /\ (lives_left (detector_step level g) <> lives_left g ->
      uint16 level < IR_TRESHOLD)
  /\ (counting_flag g <> 0 ->
      (counting_flag (detector_step level g) = 0 <->
         uint16 level > IR_TRESHOLD))
  /\ (uint16 level > IR_TRESHOLD ->
      counting_flag (detector_step level g) = 0)
  /\ (uint16 level = IR_TRESHOLD ->
      detector_result level g = 0 /\ detector_step level g = g).
Proof.
  destruct (Z.lt_trichotomy (uint16 level) IR_TRESHOLD) as [Hlt | [Heq | Hgt]].
  - destruct (Z.eq_dec (counting_flag g) 0) as [Hz | Hnz].
    + destruct (detector_fail level g Hlt Hz) as [Hr Hs].
      rewrite Hr, Hs. cbn [counting_flag set_counting_flag].
      repeat split; intros; try lia; try assumption; try discriminate.
    + destruct (detector_hold level g) as [Hr Hs]; [lia | now right |].
      rewrite Hr, Hs.
      repeat split; intros; try lia; try assumption; try tauto.
  - destruct (detector_hold level g) as [Hr Hs]; [lia | now left |].
    rewrite Hr, Hs.
    repeat split; intros; try lia; try assumption; try tauto.
  - destruct (detector_rearm level g) as [Hr Hs]; [lia |].
    rewrite Hr, Hs. cbn [counting_flag lives_left set_counting_flag].
    repeat split; intros; try lia; try assumption; try tauto.
Qed.

(** C6.  [game_set_difficulty], called with one of the three
    difficulties, makes exactly two driver calls before it returns: the
    PID gains and the cap on the motor output of that difficulty, with
    the constants of the table, and it stores the difficulty; nothing
    else in the statics changes. *)
Theorem game_set_difficulty_table (m : machine) :
  (calls (exec (game_set_difficulty HARD) m)
     = calls m ++ [pid_controller_set_parameters 35 20 1;
                   motor_set_microbit_speed 0x4FF]
   /\ globals (exec (game_set_difficulty HARD) m)
      = set_difficulty_select HARD (globals m))
  /\ (calls (exec (game_set_difficulty EXTREME) m)
      = calls m ++ [pid_controller_set_parameters 20 10 1;
                    motor_set_microbit_speed 0x3FF]
     /\ globals (exec (game_set_difficulty EXTREME) m)
        = set_difficulty_select EXTREME (globals m))
  /\ (calls (exec (game_set_difficulty IMPOSSIBLE) m)
      = calls m ++ [pid_controller_set_parameters 40 25 1;
                    motor_set_microbit_speed 0x4FF]
     /\ globals (exec (game_set_difficulty IMPOSSIBLE) m)
        = set_difficulty_select IMPOSSIBLE (globals m)).
Proof.
  destruct m as [g t]. unfold_monad.
  rewrite <- !app_assoc, !map_app. cbn [map fst app].
  repeat split.
Qed.

(** C7.  A tick sends a notification exactly when its failure detector
    went from armed to latched on that tick, that is when the level is
    below the threshold and the flag was clear.  The record is
    the lives identifier with one data byte, the low byte of
    [lives_left] as already decremented, which is that value itself
    while it is below 256.  A tick that finds the detector latched, or
    the level not below the threshold, sends nothing. *)
Theorem game_run_notifies_on_failure (env : sensors) (g : game_state) :
  notifications (tick env g) =
    (if (uint16 (adc_level env) <? IR_TRESHOLD) && (counting_flag g =? 0)
     then [can_send
             {| id := GAME_LIVES_LEFT_ID;
                data_length := 1;
                data := [uint8 (lives_left (globals (tick env g)))] |} 0]
     else [])
  /\ (0 <= lives_left (globals (tick env g)) < 2 ^ 8 ->
      uint8 (lives_left (globals (tick env g)))
      = lives_left (globals (tick env g)))
  /\ (notifications (tick env g) <> [] <->
      counting_flag g = 0 /\ counting_flag (globals (tick env g)) = 1
      /\ lives_left (globals (tick env g)) = lose_life (lives_left g))
  /\ (notifications (tick env g) = [] ->
      lives_left (globals (tick env g)) = lives_left g)
  /\ (counting_flag g <> 0 -> notifications (tick env g) = [])
  /\ (IR_TRESHOLD <= uint16 (adc_level env) ->
      notifications (tick env g) = []).
Proof.
  split; [apply tick_notifications|].
  split; [apply uint8_small|].
  rewrite tick_notifications. unfold below, armed.
  unfold tick. rewrite game_run_globals. cbn [boot globals].
  set (level := adc_level env).
  destruct (Z.lt_trichotomy (uint16 level) IR_TRESHOLD)
    as [Hlt | [Heq | Hgt]].
  - destruct (Z.eq_dec (counting_flag g) 0) as [Hz | Hnz].
    + destruct (detector_fail level g Hlt Hz) as [_ Hs]. rewrite Hs.
      apply Z.ltb_lt in Hlt. rewrite Hlt, Hz. cbn.
      repeat split; intros; try lia; try discriminate; try congruence.
    + destruct (detector_hold level g) as [_ Hs]; [lia | now right |].
      rewrite Hs. apply Z.eqb_neq in Hnz. rewrite Hnz, andb_false_r.
      apply Z.eqb_neq in Hnz.
      destruct g; cbn in *.
      repeat split; intros; try lia; try congruence; try tauto.
  - destruct (detector_hold level g) as [_ Hs]; [lia | now left |].
    rewrite Hs.
    assert (Hb : (uint16 level <? IR_TRESHOLD) = false)
      by (apply Z.ltb_ge; lia).
    rewrite Hb. destruct g; cbn in *.
    repeat split; intros; try lia; try congruence; try tauto.
  - destruct (detector_rearm level g) as [_ Hs]; [lia |].
    rewrite Hs.
    assert (Hb : (uint16 level <? IR_TRESHOLD) = false)
      by (apply Z.ltb_ge; lia).
    rewrite Hb. destruct g; cbn in *.
    repeat split; intros; try lia; try congruence; try tauto.
Qed.

(** C9.  [lives_left] has no floor.  A tick that detects a failure with
    no life left, whatever the mode, the difficulty and the rest of the
    statics, leaves [lives_left] at 2^32 - 1 and sends the lives record
    with the data byte 255, the low byte of that value. *)
Theorem game_run_lives_underflow (env : sensors) (g : game_state) :
  lives_left g = 0 ->
  counting_flag g = 0 ->
  uint16 (adc_level env) < IR_TRESHOLD ->
  lives_left (globals (tick env g)) = 2 ^ 32 - 1
  /\ counting_flag (globals (tick env g)) = 1
  /\ notifications (tick env g)
     = [can_send {| id := GAME_LIVES_LEFT_ID;
                    data_length := 1;
                    data := [255] |} 0].
Proof.
  intros Hlives Hflag Hlt.
  assert (Hg : globals (tick env g) =
               set_score (uint32 (score g + 1))
                 (set_counting_flag 1 (set_lives_left (2 ^ 32 - 1) g))).
  { unfold tick. rewrite game_run_globals. cbn [boot globals].
    destruct (detector_fail (adc_level env) g Hlt Hflag) as [_ Hs].
    rewrite Hs, Hlives. reflexivity. }
  rewrite tick_notifications, Hg. unfold below, armed.
  apply Z.ltb_lt in Hlt. rewrite Hlt, Hflag.
  repeat split.
Qed.

(** C4.  With difficulty Impossible, and with no other difficulty, the
    motor command of a tick is inverted, in each of the three modes.
    Slider mode: the target is [SLIDER_MAX - slider_right] instead of
    [slider_right].  Joystick mode: the speed is [- joystick_x] instead
    of [joystick_x].  Micro:bit mode: left becomes right and right
    becomes left, any other direction is passed on as sensed.  The two
    [int] results are the exact difference and negation whenever these
    fit an [int]. *)
Theorem game_run_impossible_inverts
  (env : sensors) (sc lv fl : Z) (d : DIFFICULTY) (u : user_input_data) :
  let run mode := motor_calls (tick env (mk_game_state sc lv fl mode d u)) in
  (run SLIDER_POS_CTRL =
     [motor_run_slider
        (match d with
         | IMPOSSIBLE => int32 (SLIDER_MAX - slider_right u)
         | HARD | EXTREME | DIFFICULTY_other _ => slider_right u
         end)])
  /\ (run JOYSTICK_SPEED_CTRL =
      [motor_run_joystick
         (match d with
          | IMPOSSIBLE => int32 (- joystick_x u)
          | HARD | EXTREME | DIFFICULTY_other _ => joystick_x u
          end)])
  /\ (run MICROBIT_SPEED_CTRL =
      [motor_run_microbit
         (match d, acc_direction env with
          | IMPOSSIBLE, ACC_LEFT => ACC_RIGHT
          | IMPOSSIBLE, ACC_RIGHT => ACC_LEFT
          | IMPOSSIBLE, ACC_DIR_other v => ACC_DIR_other v
          | _, sensed => sensed
          end)])
  /\ (is_int32 (SLIDER_MAX - slider_right u) ->
      int32 (SLIDER_MAX - slider_right u) = SLIDER_MAX - slider_right u)
  /\ (is_int32 (- joystick_x u) ->
      int32 (- joystick_x u) = - joystick_x u).
Proof.
  cbv zeta.
  split; [|split; [|split; [|split]]];
    try apply int32_small.
  - destruct env as [level dir btn]. unfold_monad.
    destruct d; tick_branches level fl; reflexivity.
  - destruct env as [level dir btn]. unfold_monad.
    destruct d; tick_branches level fl; reflexivity.
  - destruct env as [level dir btn]. unfold_monad.
    destruct d, dir; tick_branches level fl; reflexivity.
Qed.

(** C3, as the code has it.  A tick first dispatches on the mode: every
    log entry before the [adc_read] is a call of the mode switch, made
    while the statics are still those the tick started with.  Then the
    failure detector runs, whatever the mode.  Then, if it reported a
    failure, the notification is sent: it carries the decremented
    [lives_left] and is sent while the score is still the old one.  The
    score is incremented last. *)
Theorem game_run_order (env : sensors) (g : game_state) :
  let level := adc_level env in
  let g1 := detector_step level g in
  let pre := before_adc_read (trace (tick env g)) in
  Forall (fun e => is_dispatch (fst e) = true /\ snd e = g) pre
  /\ trace (tick env g)
     = pre ++ (adc_read level, g)
           :: (if detector_result level g =? 0 then []
               else [(lives_message (lives_left g1), g1)])
  /\ score g1 = score g
  /\ globals (tick env g) = set_score (uint32 (score g + 1)) g1.
Proof.
  cbv zeta.
  split; [|split; [|split]].
  - tick_cases g env; cbn [before_adc_read app];
      repeat constructor.
  - tick_cases g env; cbn [before_adc_read app]; reflexivity.
  - apply detector_keeps_score.
  - unfold tick. rewrite game_run_globals. reflexivity.
Qed.

(** ** The failure detector over a sequence of ticks *)

Lemma below_above_exclusive (level : Z) :
  below level = true -> above level = false.
Proof.
  unfold below, above. rewrite Z.gtb_ltb. intros H.
  apply Z.ltb_lt in H. apply Z.ltb_ge. lia.
Qed.

(** What one tick does to the detector, by the position of the level. *)
Lemma tick_detector_cases (env : sensors) (g : game_state) :
  let g' := globals (tick env g) in
  let level := adc_level env in
  (below level = true /\ armed g = true
   /\ lives_left g' = lose_life (lives_left g) /\ latched g' = true
   /\ length (notifications (tick env g)) = 1%nat)
  \/ (below level = true /\ latched g = true
      /\ lives_left g' = lives_left g /\ latched g' = true
      /\ notifications (tick env g) = [])
  \/ (below level = false /\ above level = true
      /\ lives_left g' = lives_left g /\ latched g' = false
      /\ notifications (tick env g) = [])
  \/ (below level = false /\ above level = false
      /\ lives_left g' = lives_left g /\ latched g' = latched g
      /\ notifications (tick env g) = []).
Proof.
  cbv zeta. rewrite tick_notifications.
  unfold tick. rewrite game_run_globals. cbn [boot globals].
  unfold latched, armed, below, above. rewrite Z.gtb_ltb.
  set (level := adc_level env).
  destruct (Z.lt_trichotomy (uint16 level) IR_TRESHOLD)
    as [Hlt | [Heq | Hgt]].
  - assert (Hb : (uint16 level <? IR_TRESHOLD) = true)
      by (apply Z.ltb_lt; exact Hlt).
    rewrite Hb.
    destruct (Z.eq_dec (counting_flag g) 0) as [Hz | Hnz].
    + left. destruct (detector_fail level g Hlt Hz) as [_ Hs].
      rewrite Hs, Hz. cbn. repeat split.
    + right; left.
      destruct (detector_hold level g) as [_ Hs]; [lia | now right |].
      rewrite Hs. apply Z.eqb_neq in Hnz. rewrite Hnz.
      destruct g; cbn in *. rewrite Hnz. repeat split.
  - right; right; right.
    destruct (detector_hold level g) as [_ Hs]; [lia | now left |].
    rewrite Hs.
    assert (Hb : (uint16 level <? IR_TRESHOLD) = false)
      by (apply Z.ltb_ge; lia).
    assert (Ha : (IR_TRESHOLD <? uint16 level) = false)
      by (apply Z.ltb_ge; lia).
    rewrite Hb, Ha. destruct g; cbn. repeat split.
  - right; right; left.
    destruct (detector_rearm level g) as [_ Hs]; [lia |].
    rewrite Hs.
    assert (Hb : (uint16 level <? IR_TRESHOLD) = false)
      by (apply Z.ltb_ge; lia).
    assert (Ha : (IR_TRESHOLD <? uint16 level) = true)
      by (apply Z.ltb_lt; lia).
    rewrite Hb, Ha. destruct g; cbn. repeat split.
Qed.

(** The lives lost and the notifications sent over any sequence of
    ticks: one per run of below-threshold levels, once the levels at
    the threshold are left out. *)
Lemma ticks_lives (envs : list sensors) (g : game_state) :
  let n := below_runs (latched g) (off_threshold (map adc_level envs)) in
  lives_left (globals (ticks envs g)) = Nat.iter n lose_life (lives_left g)
  /\ length (notifications (ticks envs g)) = n.
Proof.
  cbv zeta. revert g. induction envs as [|env envs IH]; intros g.
  - split; reflexivity.
  - rewrite notifications_cons, ticks_cons. cbn [globals map].
    rewrite length_app.
    destruct (IH (globals (tick env g))) as [IHl IHn].
    rewrite IHl, IHn. clear IHl IHn.
    unfold off_threshold. cbn [filter].
  fold (off_threshold (map adc_level envs)).
    destruct (tick_detector_cases env g)
      as [(Hb & Ha & Hl & Hf & Hn) | [(Hb & Ha & Hl & Hf & Hn)
        | [(Hb & Ha & Hl & Hf & Hn) | (Hb & Ha & Hl & Hf & Hn)]]];
      rewrite Hb, ?Ha, Hl, Hf, Hn; cbn [orb below_runs].
    + rewrite ?Hb. unfold latched. rewrite Ha. cbn [negb andb].
      rewrite Nat.iter_succ_r. split; reflexivity.
    + rewrite ?Hb, ?Ha. cbn [negb andb Nat.add length]. split; reflexivity.
    + rewrite ?Hb. cbn [andb Nat.add length]. split; reflexivity.
    + split; reflexivity.
Qed.

Lemma latched_armed (g : game_state) : latched g = negb (armed g).
Proof. reflexivity. Qed.

Lemma tick_above (env : sensors) (g : game_state) :
  above (adc_level env) = true ->
  lives_left (globals (tick env g)) = lives_left g
  /\ latched (globals (tick env g)) = false
  /\ notifications (tick env g) = [].
Proof.
  intros Hab.
  destruct (tick_detector_cases env g)
    as [(Hb & Ha & Hl & Hf & Hn) | [(Hb & Ha & Hl & Hf & Hn)
      | [(Hb & Ha & Hl & Hf & Hn) | (Hb & Ha & Hl & Hf & Hn)]]];
    try (apply below_above_exclusive in Hb); try congruence.
  repeat split; assumption.
Qed.

Lemma tick_below_armed (env : sensors) (g : game_state) :
  below (adc_level env) = true -> armed g = true ->
  lives_left (globals (tick env g)) = lose_life (lives_left g)
  /\ latched (globals (tick env g)) = true
  /\ length (notifications (tick env g)) = 1%nat.
Proof.
  intros Hbe Har.
  destruct (tick_detector_cases env g)
    as [(Hb & Ha & Hl & Hf & Hn) | [(Hb & Ha & Hl & Hf & Hn)
      | [(Hb & Ha & Hl & Hf & Hn) | (Hb & Ha & Hl & Hf & Hn)]]];
    try rewrite latched_armed in Ha; try rewrite Har in Ha;
    try congruence; try discriminate.
  repeat split; assumption.
Qed.

Lemma tick_latched_not_above (env : sensors) (g : game_state) :
  latched g = true -> above (adc_level env) = false ->
  lives_left (globals (tick env g)) = lives_left g
  /\ latched (globals (tick env g)) = true
  /\ notifications (tick env g) = [].
Proof.
  intros Hla Hab.
  destruct (tick_detector_cases env g)
    as [(Hb & Ha & Hl & Hf & Hn) | [(Hb & Ha & Hl & Hf & Hn)
      | [(Hb & Ha & Hl & Hf & Hn) | (Hb & Ha & Hl & Hf & Hn)]]].
  - rewrite latched_armed, Ha in Hla. discriminate.
  - repeat split; assumption.
  - congruence.
  - repeat split; try assumption. congruence.
Qed.

(** A latched detector stays latched, and takes no life, as long as no
    level is strictly above the threshold. *)
Lemma ticks_latched_not_above (envs : list sensors) (g : game_state) :
  latched g = true ->
  Forall (fun l => above l = false) (map adc_level envs) ->
  lives_left (globals (ticks envs g)) = lives_left g
  /\ notifications (ticks envs g) = []
  /\ latched (globals (ticks envs g)) = true.
Proof.
  revert g. induction envs as [|env envs IH]; intros g Hla Hall.
  - repeat split. exact Hla.
  - cbn [map] in Hall. inversion Hall as [|l ls Hl Hls]; subst.
    destruct (tick_latched_not_above env g Hla Hl) as (Hlv & Hlt & Hn).
    destruct (IH (globals (tick env g)) Hlt Hls) as (IHl & IHn & IHf).
    rewrite notifications_cons, ticks_cons. cbn [globals].
    rewrite IHl, IHn, Hn, Hlv, IHf. repeat split.
Qed.

(** A run of below-threshold levels that finds the detector armed:
    one life, on the first tick. *)
Lemma ticks_below_run (envs : list sensors) (g : game_state) :
  armed g = true -> envs <> [] ->
  Forall (fun l => below l = true) (map adc_level envs) ->
  lives_left (globals (ticks envs g)) = lose_life (lives_left g)
  /\ length (notifications (ticks envs g)) = 1%nat
  /\ latched (globals (ticks envs g)) = true.
Proof.
  intros Har Hne Hall.
  destruct envs as [|env envs]; [congruence|].
  cbn [map] in Hall. inversion Hall as [|l ls Hl Hls]; subst.
  destruct (tick_below_armed env g Hl Har) as (Hlv & Hlt & Hn).
  assert (Hrest : Forall (fun l => above l = false) (map adc_level envs)).
  { eapply Forall_impl; [|exact Hls].
    intros l Hb. apply below_above_exclusive. exact Hb. }
  destruct (ticks_latched_not_above envs _ Hlt Hrest) as (Rl & Rn & Rf).
  rewrite notifications_cons, ticks_cons. cbn [globals].
  rewrite Rl, Rn, Rf, Hlv, length_app, Hn. repeat split.
Qed.

(** C1, as the code has it.  Over any sequence of ticks the lives lost
    and the notifications sent number the runs of below-threshold
    levels, where only a level strictly above the threshold ends a run
    (levels equal to the threshold are left out before the runs are
    counted) and a detector that starts latched is inside a run.  In
    particular K >= 1 consecutive below-threshold ticks that find the
    detector armed take exactly one life, and a latched detector takes
    none until a level is strictly above the threshold. *)
Theorem game_run_one_life_per_run (envs : list sensors) (g : game_state) :
  let levels := map adc_level envs in
  let runs := below_runs (latched g) (off_threshold levels) in
  lives_left (globals (ticks envs g)) = Nat.iter runs lose_life (lives_left g)
  /\ length (notifications (ticks envs g)) = runs
  /\ (armed g = true -> envs <> [] ->
      Forall (fun l => below l = true) levels ->
      lives_left (globals (ticks envs g)) = lose_life (lives_left g)
      /\ length (notifications (ticks envs g)) = 1%nat
      /\ latched (globals (ticks envs g)) = true)
  /\ (latched g = true ->
      Forall (fun l => above l = false) levels ->
      lives_left (globals (ticks envs g)) = lives_left g
      /\ notifications (ticks envs g) = []
      /\ latched (globals (ticks envs g)) = true).
Proof.
  cbv zeta.
  destruct (ticks_lives envs g) as [Hl Hn].
  split; [exact Hl|]. split; [exact Hn|]. split.
  - apply ticks_below_run.
  - apply ticks_latched_not_above.
Qed.

(** C10.  [game_init] resets the score and the lives, initialises the
    drivers with the gains and the cap of Hard, and does not touch
    [counting_flag] (nor any other static).  If the detector was latched
    before, it still is: the ticks that follow take no life and send
    nothing, whatever their levels, as long as none is strictly above the
    threshold; after one that is, the next below-threshold tick takes the
    first life. *)
Theorem game_init_keeps_counting_flag (m : machine) :
  let g0 := globals (exec game_init m) in
  counting_flag g0 = counting_flag (globals m)
  /\ g0 = set_lives_left NUMBER_OF_LIVES (set_score 0 (globals m))
  /\ calls (exec game_init m)
     = calls m ++ [adc_init; servo_init; motor_init;
                   motor_set_microbit_speed 0x4FF; solenoid_init;
                   microbit_init;
                   pid_controller_init 35 20 1 MOTOR_TIMER_FREQ 0x4FF;
                   TC0_configure]
  /\ (counting_flag (globals m) <> 0 ->
      forall envs,
        Forall (fun l => above l = false) (map adc_level envs) ->
        lives_left (globals (ticks envs g0)) = NUMBER_OF_LIVES
        /\ notifications (ticks envs g0) = []
        /\ (forall up down,
              above (adc_level up) = true ->
              below (adc_level down) = true ->
              lives_left (globals (ticks (envs ++ [up; down]) g0))
              = NUMBER_OF_LIVES - 1)).
Proof.
  cbv zeta.
  assert (Hg0 : globals (exec game_init m)
                = set_lives_left NUMBER_OF_LIVES (set_score 0 (globals m))).
  { destruct m as [g t]. unfold_monad. reflexivity. }
  rewrite Hg0.
  set (g0 := set_lives_left NUMBER_OF_LIVES (set_score 0 (globals m))).
  split; [reflexivity|]. split; [reflexivity|].
  split.
  { destruct m as [g t]. unfold_monad.
    rewrite <- !app_assoc, !map_app. reflexivity. }
  intros Hflag envs Hall.
  assert (Hla : latched g0 = true).
  { unfold latched, armed, g0. cbn [counting_flag set_lives_left set_score].
    apply Z.eqb_neq in Hflag. rewrite Hflag. reflexivity. }
  destruct (ticks_latched_not_above envs g0 Hla Hall) as (Hl & Hn & Hf).
  split; [exact Hl|]. split; [exact Hn|].
  intros up down Hup Hdown.
  rewrite ticks_app. cbn [globals].
  rewrite ticks_cons. cbn [globals].
  rewrite ticks_cons. cbn [globals]. rewrite ticks_nil. cbn [boot globals].
  set (g1 := globals (ticks envs g0)) in *.
  destruct (tick_above up g1 Hup) as (Ul & Uf & _).
  assert (Uar : armed (globals (tick up g1)) = true).
  { rewrite latched_armed in Uf. apply negb_false_iff. exact Uf. }
  destruct (tick_below_armed down _ Hdown Uar) as (Dl & _ & _).
  rewrite Dl, Ul, Hl. reflexivity.
Qed.

(** ** Further properties of the tick *)

Lemma detector_frame (level : Z) (g : game_state) :
  controller_select (detector_step level g) = controller_select g
  /\ difficulty_select (detector_step level g) = difficulty_select g
  /\ user_data (detector_step level g) = user_data g.
Proof.
  unfold_monad.
  destruct ((uint16 level <? IR_TRESHOLD) && (counting_flag g =? 0));
    [repeat split|].
  destruct (uint16 level >? IR_TRESHOLD); repeat split.
Qed.

Lemma tick_frame (env : sensors) (g : game_state) :
  controller_select (globals (tick env g)) = controller_select g
  /\ difficulty_select (globals (tick env g)) = difficulty_select g
  /\ user_data (globals (tick env g)) = user_data g.
Proof.
  unfold tick. rewrite game_run_globals. cbn [boot globals].
  destruct (detector_frame (adc_level env) g) as (Hc & Hd & Hu).
  destruct (detector_step (adc_level env) g).
  cbn [set_score controller_select difficulty_select user_data] in *.
  repeat split; assumption.
Qed.

Lemma ticks_frame (envs : list sensors) (g : game_state) :
  controller_select (globals (ticks envs g)) = controller_select g
  /\ difficulty_select (globals (ticks envs g)) = difficulty_select g
  /\ user_data (globals (ticks envs g)) = user_data g.
Proof.
  revert g. induction envs as [|env envs IH]; intros g.
  - repeat split.
  - rewrite ticks_cons. cbn [globals].
    destruct (IH (globals (tick env g))) as (Hc & Hd & Hu).
    destruct (tick_frame env g) as (Hc' & Hd' & Hu').
    rewrite Hc, Hd, Hu. repeat split; assumption.
Qed.

(** X1.  [game_run] writes the score, the lives and the flag and nothing
    else: over any sequence of ticks the stored mode, the stored
    difficulty and the input snapshot stay what they were. *)
Theorem game_run_keeps_configuration
  (envs : list sensors) (g : game_state) :
  controller_select (globals (ticks envs g)) = controller_select g
  /\ difficulty_select (globals (ticks envs g)) = difficulty_select g
  /\ user_data (globals (ticks envs g)) = user_data g.
Proof. apply ticks_frame. Qed.

Lemma lives_countdown_shift (lives : Z) (n : nat) :
  lives_message (lose_life lives) :: lives_countdown (lose_life lives) n
  = lives_countdown lives (S n).
Proof.
  unfold lives_countdown. cbn [seq map Nat.iter].
  f_equal. rewrite <- (seq_shift n 1), map_map.
  apply map_ext. intros k. rewrite Nat.iter_succ_r. reflexivity.
Qed.

Lemma ticks_notifications (envs : list sensors) (g : game_state) :
  notifications (ticks envs g)
  = lives_countdown (lives_left g)
      (below_runs (latched g) (off_threshold (map adc_level envs))).
Proof.
  revert g. induction envs as [|env envs IH]; intros g.
  - reflexivity.
  - rewrite notifications_cons, IH. cbn [map].
    unfold off_threshold. cbn [filter].
    fold (off_threshold (map adc_level envs)).
    pose proof (tick_notifications env g) as Hmsg.
    destruct (tick_detector_cases env g)
      as [(Hb & Ha & Hl & Hf & Hn) | [(Hb & Ha & Hl & Hf & Hn)
        | [(Hb & Ha & Hl & Hf & Hn) | (Hb & Ha & Hl & Hf & Hn)]]].
    + rewrite Hb, Ha in Hmsg. cbn [andb] in Hmsg.
      rewrite Hmsg, Hl, Hf, Hb. cbn [orb below_runs]. rewrite Hb.
      rewrite latched_armed, Ha. cbn [negb andb Nat.add app].
      apply lives_countdown_shift.
    + rewrite Hn, Hl, Hf, Hb. cbn [orb below_runs]. rewrite Hb, Ha.
      reflexivity.
    + rewrite Hn, Hl, Hf, Hb, Ha. cbn [orb below_runs]. rewrite Hb.
      reflexivity.
    + rewrite Hn, Hl, Hf, Hb, Ha. reflexivity.
Qed.

Lemma iter_lose_life (k : nat) (lives : Z) :
  Z.of_nat k <= lives < 2 ^ 32 ->
  Nat.iter k lose_life lives = lives - Z.of_nat k.
Proof.
  induction k as [|k IH]; intros H.
  - cbn. lia.
  - rewrite Nat.iter_succ, IH by lia.
    unfold lose_life. rewrite uint32_small by (unfold is_uint32; lia).
    lia.
Qed.

(** X2.  The notifications of any sequence of ticks count the lives
    down: the k-th record sent carries the low byte of the starting
    [lives_left] decremented k times, which is [lives_left - k] as long
    as k does not exceed the lives there were. *)
Theorem game_run_notifications_count_down
  (envs : list sensors) (g : game_state) :
  notifications (ticks envs g)
  = map (fun k =>
           can_send {| id := GAME_LIVES_LEFT_ID;
                       data_length := 1;
                       data := [uint8 (Nat.iter k lose_life (lives_left g))]
                    |} 0)
      (seq 1 (length (notifications (ticks envs g))))
  /\ (forall k, Z.of_nat k <= lives_left g < 2 ^ 32 ->
       Nat.iter k lose_life (lives_left g) = lives_left g - Z.of_nat k).
Proof.
  split.
  - rewrite (ticks_notifications envs g) at 1.
    destruct (ticks_lives envs g) as [_ Hn]. cbv zeta in Hn.
    rewrite Hn. reflexivity.
  - intros k. apply iter_lose_life.
Qed.

(** X3.  Two consecutive ticks never both take a life: a tick that takes
    one latches the detector, and re-arming takes a tick of its own.  So
    n ticks send at most (n + 1) / 2 notifications, and at most n / 2 from
    a latched detector. *)
Theorem game_run_life_every_other_tick
  (envs : list sensors) (g : game_state) :
  (2 * length (notifications (ticks envs g))
   <= length envs + (if latched g then 0 else 1))%nat.
Proof.
  revert g. induction envs as [|env envs IH]; intros g.
  - cbn. lia.
  - rewrite notifications_cons, length_app. cbn [length].
    specialize (IH (globals (tick env g))).
    destruct (tick_detector_cases env g)
      as [(Hb & Ha & Hl & Hf & Hn) | [(Hb & Ha & Hl & Hf & Hn)
        | [(Hb & Ha & Hl & Hf & Hn) | (Hb & Ha & Hl & Hf & Hn)]]];
      rewrite Hn; rewrite Hf in IH; cbn [length].
    + rewrite latched_armed, Ha. cbn [negb]. lia.
    + rewrite Ha. lia.
    + destruct (latched g); lia.
    + destruct (latched g); lia.
Qed.

Lemma tick_detector_congr (env1 env2 : sensors) (g1 g2 : game_state) :
  adc_level env1 = adc_level env2 ->
  lives_left g1 = lives_left g2 ->
  counting_flag g1 = counting_flag g2 ->
  lives_left (globals (tick env1 g1)) = lives_left (globals (tick env2 g2))
  /\ counting_flag (globals (tick env1 g1))
     = counting_flag (globals (tick env2 g2))
  /\ notifications (tick env1 g1) = notifications (tick env2 g2).
Proof.
  intros Hlevel Hlives Hflag.
  assert (Hstate :
    lives_left (globals (tick env1 g1)) = lives_left (globals (tick env2 g2))
    /\ counting_flag (globals (tick env1 g1))
       = counting_flag (globals (tick env2 g2))).
  { unfold tick. rewrite !game_run_globals. cbn [boot globals].
    rewrite <- Hlevel. generalize (adc_level env1). intros level.
    destruct g1 as [sc1 lv1 fl1 m1 d1 u1], g2 as [sc2 lv2 fl2 m2 d2 u2].
    cbn [lives_left counting_flag] in Hlives, Hflag. subst lv2 fl2.
    unfold_monad. tick_branches level fl1; split; reflexivity. }
  destruct Hstate as [Hl Hf]. split; [exact Hl|]. split; [exact Hf|].
  rewrite !tick_notifications. unfold armed.
  rewrite Hlevel, Hflag, Hl. reflexivity.
Qed.

(** X4.  The failure detector does not look at the mode, the difficulty,
    the input snapshot, the score or the micro:bit: two runs of ticks
    that see the same infrared levels and start with the same lives and
    flag end with the same lives and flag and send the same
    notifications. *)
Theorem failure_detection_ignores_mode
  (envs1 envs2 : list sensors) (g1 g2 : game_state) :
  map adc_level envs1 = map adc_level envs2 ->
  lives_left g1 = lives_left g2 ->
  counting_flag g1 = counting_flag g2 ->
  lives_left (globals (ticks envs1 g1)) = lives_left (globals (ticks envs2 g2))
  /\ counting_flag (globals (ticks envs1 g1))
     = counting_flag (globals (ticks envs2 g2))
  /\ notifications (ticks envs1 g1) = notifications (ticks envs2 g2).
Proof.
  revert envs2 g1 g2.
  induction envs1 as [|env1 envs1 IH];
    intros [|env2 envs2] g1 g2 Hlevels Hlives Hflag;
    cbn [map] in Hlevels; try discriminate Hlevels.
  - repeat split; assumption.
  - injection Hlevels as Hlevel Hrest.
    destruct (tick_detector_congr env1 env2 g1 g2 Hlevel Hlives Hflag)
      as (Hl & Hf & Hn).
    destruct (IH envs2 _ _ Hrest Hl Hf) as (IHl & IHf & IHn).
    rewrite !notifications_cons, !ticks_cons. cbn [globals].
    rewrite Hn, IHn. repeat split; assumption.
Qed.

Lemma dispatch_calls_normal (env : sensors) (g : game_state) :
  dispatch_calls (tick env g)
  = dispatch_calls
      (tick (mk_sensors 0 (acc_direction env) (acc_button env))
         (mk_game_state 0 0 0 (controller_select g) (difficulty_select g)
            (user_data g))).
Proof.
  unfold dispatch_calls. tick_cases g env; reflexivity.
Qed.

(** X5.  The commands of a tick to the motor, the servo and the solenoid
    depend on the mode, the difficulty, the input snapshot and the
    micro:bit only: not on the infrared level, the flag, the score or the
    lives.  In particular a tick actuates the same with no life left. *)
Theorem actuation_ignores_lives
  (env1 env2 : sensors) (g1 g2 : game_state) :
  controller_select g1 = controller_select g2 ->
  difficulty_select g1 = difficulty_select g2 ->
  user_data g1 = user_data g2 ->
  acc_direction env1 = acc_direction env2 ->
  acc_button env1 = acc_button env2 ->
  dispatch_calls (tick env1 g1) = dispatch_calls (tick env2 g2).
Proof.
  intros Hc Hd Hu Hdir Hbtn.
  rewrite (dispatch_calls_normal env1 g1), (dispatch_calls_normal env2 g2).
  rewrite Hc, Hd, Hu, Hdir, Hbtn. reflexivity.
Qed.

(** X6.  What a tick commands besides the motor.  Slider mode: the servo
    follows [joystick_x] and the solenoid [button_right].  Joystick mode:
    the servo is at [2 * (slider_right - 50)], the solenoid follows
    [button_right].  Micro:bit mode: the servo follows [joystick_x] and
    the solenoid the micro:bit button; only this mode reads the micro:bit.
    None of this depends on the difficulty.  Each of the three modes
    makes exactly one motor call; any other stored mode makes no call of
    the switch.  In every mode the rest of the log is one [adc_read] and
    the notification, if any. *)
Theorem game_run_dispatch_by_mode
  (env : sensors) (sc lv fl : Z) (d : DIFFICULTY) (u : user_input_data) :
  let run mode := tick env (mk_game_state sc lv fl mode d u) in
  (exists c, is_motor_call c = true
     /\ dispatch_calls (run SLIDER_POS_CTRL)
        = [c; servo_set_position (joystick_x u);
           solenoid_run_button (button_right u)])
  /\ (exists c, is_motor_call c = true
        /\ dispatch_calls (run JOYSTICK_SPEED_CTRL)
           = [c; servo_set_position (int32 (2 * int32 (slider_right u - 50)));
              solenoid_run_button (button_right u)])
  /\ (exists c, is_motor_call c = true
        /\ dispatch_calls (run MICROBIT_SPEED_CTRL)
           = [microbit_dir (acc_direction env); c;
              servo_set_position (joystick_x u);
              microbit_button (acc_button env);
              solenoid_run_button (acc_button env)])
  /\ (forall v, dispatch_calls (run (CONTROLLER_SEL_other v)) = [])
  /\ (forall mode,
        calls (run mode)
        = dispatch_calls (run mode)
          ++ adc_read (adc_level env) :: notifications (run mode))
  /\ (is_int32 (slider_right u - 50) ->
      is_int32 (2 * (slider_right u - 50)) ->
      int32 (2 * int32 (slider_right u - 50)) = 2 * (slider_right u - 50)).
Proof.
  cbv zeta. unfold dispatch_calls.
  split; [|split; [|split; [|split; [|split]]]].
  - destruct env as [level dir btn]. unfold_monad.
    destruct d; tick_branches level fl;
      (eexists; split; [|reflexivity]; reflexivity).
  - destruct env as [level dir btn]. unfold_monad.
    destruct d; tick_branches level fl;
      (eexists; split; [|reflexivity]; reflexivity).
  - destruct env as [level dir btn]. unfold_monad.
    destruct d, dir; tick_branches level fl;
      (eexists; split; [|reflexivity]; reflexivity).
  - intros v. destruct env as [level dir btn]. unfold_monad.
    destruct d; tick_branches level fl; reflexivity.
  - intros mode. destruct env as [level dir btn]. unfold_monad.
    destruct mode, d, dir; tick_branches level fl; reflexivity.
  - intros H1 H2. rewrite (int32_small _ H1). apply int32_small. exact H2.
Qed.

(** X7.  [game_run] never reads [joystick_y], [slider_left] or
    [button_left]: with these three fields of the snapshot replaced by 0
    a tick makes the same calls and leaves the same score, lives and
    flag. *)
Theorem game_run_unused_inputs (env : sensors) (g : game_state) :
  calls (tick env (set_user_data (used_inputs (user_data g)) g))
  = calls (tick env g)
  /\ score (globals (tick env (set_user_data (used_inputs (user_data g)) g)))
     = score (globals (tick env g))
  /\ lives_left
       (globals (tick env (set_user_data (used_inputs (user_data g)) g)))
     = lives_left (globals (tick env g))
  /\ counting_flag
       (globals (tick env (set_user_data (used_inputs (user_data g)) g)))
     = counting_flag (globals (tick env g)).
Proof.
  destruct env as [level dir btn]. destruct g as [sc lv fl mode diff u].
  unfold set_user_data, used_inputs.
  cbn [score lives_left counting_flag controller_select difficulty_select
       user_data].
  unfold_monad.
  destruct mode, diff, dir; tick_branches level fl; repeat split.
Qed.

(** ** Configuration, initialisation and the score read-out *)

Lemma game_set_difficulty_globals (d : DIFFICULTY) (m : machine) :
  globals (exec (game_set_difficulty d) m)
  = set_difficulty_select d (globals m).
Proof. destruct m as [g t], d; reflexivity. Qed.

Lemma game_init_globals (m : machine) :
  globals (exec game_init m)
  = set_lives_left NUMBER_OF_LIVES (set_score 0 (globals m)).
Proof. destruct m as [g t]. reflexivity. Qed.

Lemma game_ticks_globals (envs : list sensors) (m : machine) :
  globals (exec (game_ticks envs) m) = globals (ticks envs (globals m)).
Proof. rewrite game_ticks_frame. reflexivity. Qed.

(** X8.  [game_init] resets neither the stored mode nor the stored
    difficulty nor the input snapshot, although it programs the drivers
    with the gains and the cap of Hard.  Called while the stored
    difficulty is Impossible, it leaves the control inverted: the next
    tick in slider mode still targets [SLIDER_MAX - slider_right]. *)
Theorem game_init_keeps_difficulty (env : sensors) (m : machine) :
  controller_select (globals (exec game_init m))
  = controller_select (globals m)
  /\ difficulty_select (globals (exec game_init m))
     = difficulty_select (globals m)
  /\ user_data (globals (exec game_init m)) = user_data (globals m)
  /\ In (pid_controller_init K_P_HARD K_I_HARD K_D_HARD
           MOTOR_TIMER_FREQ MAX_MOTOR_SPEED)
        (calls (exec game_init m))
  /\ In (motor_set_microbit_speed MB_SPEED_HARD) (calls (exec game_init m))
  /\ (difficulty_select (globals m) = IMPOSSIBLE ->
      controller_select (globals m) = SLIDER_POS_CTRL ->
      motor_calls (tick env (globals (exec game_init m)))
      = [motor_run_slider
           (int32 (SLIDER_MAX - slider_right (user_data (globals m))))]).
Proof.
  rewrite game_init_globals.
  split; [reflexivity|]. split; [reflexivity|]. split; [reflexivity|].
  split; [|split].
  - destruct m as [g t]. unfold_monad. rewrite !map_app.
    rewrite !in_app_iff. cbn [map fst In]. auto 20.
  - destruct m as [g t]. unfold_monad. rewrite !map_app.
    rewrite !in_app_iff. cbn [map fst In]. auto 20.
  - destruct m as [g t]. destruct g as [sc lv fl mode diff u].
    unfold set_lives_left, set_score.
    cbn [globals difficulty_select controller_select user_data
         score lives_left counting_flag].
    intros Hd Hc. subst diff mode.
    destruct env as [level dir btn]. unfold_monad.
    tick_branches level fl; reflexivity.
Qed.

(** X9.  [game_set_difficulty] with a value that is none of the three
    difficulties calls no driver, so the gains and the cap stay those of
    the difficulty set before, and still stores the value: from then on a
    tick commands what it commands under Hard, without inversion. *)
Theorem game_set_difficulty_unknown (v : Z) (env : sensors) (m : machine) :
  exec (game_set_difficulty (DIFFICULTY_other v)) m
  = mk_machine (set_difficulty_select (DIFFICULTY_other v) (globals m))
      (trace m)
  /\ dispatch_calls
       (tick env (globals (exec (game_set_difficulty (DIFFICULTY_other v)) m)))
     = dispatch_calls (tick env (set_difficulty_select HARD (globals m))).
Proof.
  split.
  - destruct m as [g t]. reflexivity.
  - rewrite game_set_difficulty_globals. destruct m as [g t].
    cbn [globals]. unfold dispatch_calls, set_difficulty_select.
    destruct g as [sc lv fl mode diff u].
    cbn [score lives_left counting_flag controller_select user_data].
    destruct env as [level dir btn]. unfold_monad.
    destruct mode, dir; tick_branches level fl; reflexivity.
Qed.

(** X10.  A mode and a difficulty, once set, are what every later tick
    dispatches on, however many ticks have run in between: the calls of
    the mode switch are those of a tick on the statics with that mode and
    that difficulty. *)
Theorem game_set_configuration_persists
  (c : CONTROLLER_SEL) (d : DIFFICULTY)
  (envs : list sensors) (env : sensors) (m : machine) :
  let m1 :=
    exec (game_ticks envs)
      (exec (game_set_difficulty d) (exec (game_set_controller c) m)) in
  controller_select (globals m1) = c
  /\ difficulty_select (globals m1) = d
  /\ dispatch_calls (tick env (globals m1))
     = dispatch_calls
         (tick env
            (set_difficulty_select d (set_controller_select c (globals m)))).
Proof.
  cbv zeta. rewrite game_ticks_globals, game_set_difficulty_globals.
  assert (Hc : globals (exec (game_set_controller c) m)
               = set_controller_select c (globals m))
    by (destruct m; reflexivity).
  rewrite Hc.
  set (g := set_difficulty_select d (set_controller_select c (globals m))).
  destruct (ticks_frame envs g) as (Fc & Fd & Fu).
  split; [rewrite Fc; reflexivity|]. split; [rewrite Fd; reflexivity|].
  rewrite (dispatch_calls_normal env (globals (ticks envs g))).
  rewrite (dispatch_calls_normal env g).
  rewrite Fc, Fd, Fu. reflexivity.
Qed.

(** X11.  [game_get_score] changes nothing and calls no driver.  It
    returns the score converted to [int]: the score itself below 2^31,
    and the negative number [score - 2^32] from 2^31 on. *)
Theorem game_get_score_as_int (m : machine) :
  exec game_get_score m = m
  /\ (0 <= score (globals m) < 2 ^ 31 ->
      eval game_get_score m = score (globals m))
  /\ (2 ^ 31 <= score (globals m) < 2 ^ 32 ->
      eval game_get_score m = score (globals m) - 2 ^ 32
      /\ eval game_get_score m < 0).
Proof.
  unfold game_get_score, exec, eval, bind, get, ret. cbn [fst snd].
  split; [reflexivity|]. split.
  - intros H. apply int32_small. unfold is_int32. lia.
  - intros H. unfold int32.
    assert (Hmod : (score (globals m) + 2 ^ 31) mod 2 ^ 32
                   = score (globals m) + 2 ^ 31 - 2 ^ 32).
    { symmetry. apply (Z.mod_unique _ _ 1); lia. }
    rewrite Hmod. lia.
Qed.

(** X12.  The score read-out counts the ticks since the last reset:
    after [game_reset_score] and n ticks, n below 2^31, [game_get_score]
    returns n, whatever the ticks saw and did. *)
Theorem game_get_score_counts_ticks (envs : list sensors) (m : machine) :
  Z.of_nat (length envs) < 2 ^ 31 ->
  eval game_get_score (exec (game_ticks envs) (exec game_reset_score m))
  = Z.of_nat (length envs).
Proof.
  intros Hn.
  assert (Hscore :
    score (globals (exec (game_ticks envs) (exec game_reset_score m)))
    = Z.of_nat (length envs)).
  { rewrite game_ticks_globals, ticks_score.
    assert (H0 : score (globals (exec game_reset_score m)) = 0)
      by (destruct m; reflexivity).
    rewrite H0. destruct envs as [|e envs]; [reflexivity|].
    cbn [length] in *. rewrite iter_incr_uint32.
    apply uint32_small. unfold is_uint32. lia. }
  unfold game_get_score, eval, bind, get, ret. cbn [fst snd].
  rewrite Hscore. apply int32_small. unfold is_int32. lia.
Qed.

(** ** The input frame *)

Lemma int32_bounds (z : Z) : is_int32 (int32 z).
Proof.
  unfold is_int32, int32.
  pose proof (Z.mod_pos_bound (z + 2 ^ 31) (2 ^ 32) ltac:(lia)). lia.
Qed.

Lemma uint8_bounds (z : Z) : 0 <= uint8 z < 2 ^ 8.
Proof. unfold uint8. apply Z.mod_pos_bound. lia. Qed.

Lemma uint32_bounds (z : Z) : is_uint32 (uint32 z).
Proof. unfold is_uint32, uint32. apply Z.mod_pos_bound. lia. Qed.

(** X13.  [game_set_user_data] replaces the snapshot and does nothing
    else: it calls no driver and leaves the other statics alone, so of
    two frames in a row only the second counts.  It reads the first six
    bytes of the frame and no more.  The snapshot it stores holds four
    [int] values and two bytes. *)
Theorem game_set_user_data_last_wins
  (data1 data2 extra : list Z) (m : machine) :
  exec (game_set_user_data data2) (exec (game_set_user_data data1) m)
  = exec (game_set_user_data data2) m
  /\ exec (game_set_user_data data1) m
     = mk_machine
         (set_user_data
            (user_data (globals (exec (game_set_user_data data1) m)))
            (globals m))
         (trace m)
  /\ (length data1 = 6%nat ->
      exec (game_set_user_data (data1 ++ extra)) m
      = exec (game_set_user_data data1) m)
  /\ user_data_ok (user_data (globals (exec (game_set_user_data data1) m))).
Proof.
  destruct m as [g t].
  unfold game_set_user_data, exec, modify, set_user_data.
  cbn [snd globals trace score lives_left counting_flag controller_select
       difficulty_select user_data].
  split; [reflexivity|]. split; [reflexivity|]. split.
  - intros Hlen. rewrite !app_nth1 by lia. reflexivity.
  - unfold user_data_ok.
    cbn [joystick_x joystick_y slider_left slider_right button_left
         button_right].
    repeat (split; [first [apply int32_bounds | apply uint8_bounds]|]).
    apply uint8_bounds.
Qed.

(** X14.  From the frame to the actuators.  After a frame is stored, a
    tick without inversion drives, in slider mode, the motor to the
    scaled byte 3, the servo to the scaled byte 0 and the solenoid from
    byte 5; in joystick mode the motor speed is the scaled byte 0 and the
    servo is placed from the scaled byte 3.  Bytes 1, 2 and 4 reach no
    actuator. *)
Theorem frame_drives_actuators
  (b0 b1 b2 b3 b4 b5 : Z) (env : sensors) (m : machine) :
  let g := globals (exec (game_set_user_data [b0; b1; b2; b3; b4; b5]) m) in
  is_IMPOSSIBLE (difficulty_select (globals m)) = false ->
  (controller_select (globals m) = SLIDER_POS_CTRL ->
   dispatch_calls (tick env g)
   = [motor_run_slider (int32 (slider_scale_right (uint8 b3)));
      servo_set_position (int32 (joystick_scale_x (uint8 b0)));
      solenoid_run_button (uint8 b5)])
  /\ (controller_select (globals m) = JOYSTICK_SPEED_CTRL ->
      dispatch_calls (tick env g)
      = [motor_run_joystick (int32 (joystick_scale_x (uint8 b0)));
         servo_set_position
           (int32 (2 * int32 (int32 (slider_scale_right (uint8 b3)) - 50)));
         solenoid_run_button (uint8 b5)]).
Proof.
  cbv zeta. destruct m as [g t]. destruct g as [sc lv fl mode diff u].
  unfold game_set_user_data, exec, modify, set_user_data.
  cbn [snd globals trace score lives_left counting_flag controller_select
       difficulty_select user_data nth].
  intros Hd. unfold dispatch_calls.
  destruct env as [level dir btn].
  split; intros Hc; subst mode; unfold_monad;
    destruct diff; cbn in Hd; try discriminate Hd;
    tick_branches level fl; reflexivity.
Qed.

(** ** An invariant of the module *)

Lemma exec_run_commands_cons (c : command) (cs : list command) (m : machine) :
  exec (run_commands (c :: cs)) m
  = exec (run_commands cs) (exec (run_command c) m).
Proof.
  unfold exec. cbn [run_commands]. unfold bind.
  destruct (run_command c m) as [[] m1]. reflexivity.
Qed.

Lemma Forall_lives_record_filter (l : list call) :
  Forall is_lives_record (filter is_can_send l) ->
  Forall is_lives_record l.
Proof.
  induction l as [|c l IH]; intros H.
  - constructor.
  - cbn [filter] in H. destruct c; cbn [is_can_send] in H;
      try (constructor; [exact I | apply IH; exact H]).
    inversion H; subst. constructor; [assumption | apply IH; assumption].
Qed.

Lemma lives_message_is_lives_record (lives : Z) :
  is_lives_record (lives_message lives).
Proof.
  cbn. repeat split. exists (uint8 lives). split; [reflexivity|].
  apply uint8_bounds.
Qed.

Lemma tick_calls_lives_records (env : sensors) (g : game_state) :
  Forall is_lives_record (calls (tick env g)).
Proof.
  apply Forall_lives_record_filter.
  change (filter is_can_send (calls (tick env g)))
    with (notifications (tick env g)).
  rewrite tick_notifications.
  destruct (below (adc_level env) && armed g).
  - constructor; [apply lives_message_is_lives_record | constructor].
  - constructor.
Qed.

Lemma tick_statics_ok (env : sensors) (g : game_state) :
  statics_ok g -> statics_ok (globals (tick env g)).
Proof.
  intros (Hs & Hl & Hf & Hu).
  unfold tick. rewrite game_run_globals. cbn [boot globals].
  set (level := adc_level env).
  assert (Hstep : is_uint32 (lives_left (detector_step level g))
                  /\ (counting_flag (detector_step level g) = 0
                      \/ counting_flag (detector_step level g) = 1)
                  /\ user_data (detector_step level g) = user_data g).
  { destruct (detector_frame level g) as (_ & _ & Hud).
    split; [|split; [|exact Hud]].
    - destruct (Z.lt_trichotomy (uint16 level) IR_TRESHOLD)
        as [Hlt | [Heq | Hgt]].
      + destruct (Z.eq_dec (counting_flag g) 0) as [Hz | Hnz].
        * destruct (detector_fail level g Hlt Hz) as [_ E]. rewrite E.
          apply uint32_bounds.
        * destruct (detector_hold level g) as [_ E]; [lia | now right |].
          rewrite E. exact Hl.
      + destruct (detector_hold level g) as [_ E]; [lia | now left |].
        rewrite E. exact Hl.
      + destruct (detector_rearm level g) as [_ E]; [lia |].
        rewrite E. exact Hl.
    - destruct (Z.lt_trichotomy (uint16 level) IR_TRESHOLD)
        as [Hlt | [Heq | Hgt]].
      + destruct (Z.eq_dec (counting_flag g) 0) as [Hz | Hnz].
        * destruct (detector_fail level g Hlt Hz) as [_ E]. rewrite E.
          right. reflexivity.
        * destruct (detector_hold level g) as [_ E]; [lia | now right |].
          rewrite E. exact Hf.
      + destruct (detector_hold level g) as [_ E]; [lia | now left |].
        rewrite E. exact Hf.
      + destruct (detector_rearm level g) as [_ E]; [lia |].
        rewrite E. left. reflexivity. }
  destruct Hstep as (Hl' & Hf' & Hu').
  destruct (detector_step level g) as [sc' lv' fl' mode' diff' u'].
  cbn [lives_left counting_flag user_data] in Hl', Hf', Hu'.
  unfold statics_ok, set_score.
  cbn [score lives_left counting_flag user_data].
  rewrite Hu'.
  split; [apply uint32_bounds|]. split; [exact Hl'|].
  split; [exact Hf' | exact Hu].
Qed.

Lemma run_command_ok (c : command) (m : machine) :
  statics_ok (globals m) -> Forall is_lives_record (calls m) ->
  statics_ok (globals (exec (run_command c) m))
  /\ Forall is_lives_record (calls (exec (run_command c) m)).
Proof.
  intros Hok Hlog. destruct c; cbn [run_command].
  - rewrite game_init_globals. split.
    + destruct Hok as (Hs & Hl & Hf & Hu). destruct (globals m).
      unfold statics_ok, set_lives_left, set_score.
      cbn [score lives_left counting_flag user_data] in *.
      split; [unfold is_uint32; lia|].
      split; [unfold is_uint32, NUMBER_OF_LIVES; lia|].
      split; assumption.
    + destruct m as [g t]. unfold_monad. unfold calls in Hlog.
      cbn [trace] in Hlog. rewrite !map_app, !Forall_app.
      repeat split; try assumption; repeat constructor.
  - rewrite game_run_frame. cbn [globals]. split.
    + apply tick_statics_ok. exact Hok.
    + unfold calls. cbn [trace]. rewrite map_app, Forall_app.
      split; [exact Hlog | apply tick_calls_lives_records].
  - destruct m as [g t]. split; [|exact Hlog].
    destruct g. exact Hok.
  - rewrite game_set_difficulty_globals. split.
    + destruct (globals m). exact Hok.
    + destruct m as [g t]. unfold calls in *. cbn [trace] in Hlog.
      destruct difficulty; unfold_monad;
        rewrite ?map_app, ?Forall_app;
        repeat split; try assumption; repeat constructor.
  - destruct m as [g t]. split; [|exact Hlog].
    destruct Hok as (Hs & Hl & Hf & Hu). destruct g.
    unfold game_set_user_data, exec, modify, set_user_data, statics_ok.
    cbn [snd globals score lives_left counting_flag user_data] in *.
    split; [exact Hs|]. split; [exact Hl|]. split; [exact Hf|].
    unfold user_data_ok.
    cbn [joystick_x joystick_y slider_left slider_right button_left
         button_right].
    repeat (split; [first [apply int32_bounds | apply uint8_bounds]|]).
    apply uint8_bounds.
  - destruct m as [g t]. split; [exact Hok | exact Hlog].
  - destruct m as [g t]. split; [|exact Hlog].
    destruct Hok as (Hs & Hl & Hf & Hu). destruct g.
    unfold statics_ok.
    cbn [game_reset_score exec modify snd globals set_score score
         lives_left counting_flag user_data] in *.
    split; [unfold is_uint32; lia|]. split; [exact Hl|].
    split; assumption.
  - destruct m as [g t]. split; [|exact Hlog].
    destruct Hok as (Hs & Hl & Hf & Hu). destruct g.
    unfold statics_ok.
    cbn [game_reset_lives_left exec modify snd globals set_lives_left
         score lives_left counting_flag user_data] in *.
    split; [exact Hs|]. split; [apply uint32_bounds|].
    split; assumption.
  - destruct m as [g t]. split; [exact Hok|].
    unfold calls in *. cbn [trace] in Hlog.
    unfold game_timer_enable, exec, extern. cbn [snd trace].
    rewrite map_app, Forall_app. split; [exact Hlog | repeat constructor].
  - destruct m as [g t]. split; [exact Hok|].
    unfold calls in *. cbn [trace] in Hlog.
    unfold game_timer_disable, exec, extern. cbn [snd trace].
    rewrite map_app, Forall_app. split; [exact Hlog | repeat constructor].
Qed.

(** X15.  Whatever sequence of calls of the exported functions runs on
    statics that hold machine values, the statics still do afterwards:
    the score and the lives are within [unsigned int], the flag is 0 or
    1, the scaled inputs are within [int] and the buttons are bytes.
    Every CAN frame the module has sent by then is a lives record: the
    lives identifier, one data byte, transmit buffer 0. *)
Theorem statics_stay_ok (cs : list command) (g : game_state) :
  statics_ok g ->
  statics_ok (globals (exec (run_commands cs) (boot g)))
  /\ Forall is_lives_record (calls (exec (run_commands cs) (boot g))).
Proof.
  intros Hok.
  assert (Hgen : forall m,
    statics_ok (globals m) -> Forall is_lives_record (calls m) ->
    statics_ok (globals (exec (run_commands cs) m))
    /\ Forall is_lives_record (calls (exec (run_commands cs) m))).
  { induction cs as [|c cs IH]; intros m Hm Hlog.
    - split; assumption.
    - rewrite exec_run_commands_cons.
      destruct (run_command_ok c m Hm Hlog) as [Hm' Hlog'].
      apply IH; assumption. }
  apply Hgen; [exact Hok | constructor].
Qed.

(** ** Resets in the middle of a game *)

Lemma notifications_exec_game_ticks (envs : list sensors) (m : machine) :
  notifications (exec (game_ticks envs) m)
  = notifications m ++ notifications (ticks envs (globals m)).
Proof.
  rewrite game_ticks_frame. unfold notifications, calls. cbn [trace].
  rewrite map_app, filter_app. reflexivity.
Qed.

Lemma notifications_count_after (envs : list sensors) (m m' : machine) :
  trace m' = trace m ->
  counting_flag (globals m') = counting_flag (globals m) ->
  length (notifications (exec (game_ticks envs) m'))
  = length (notifications (exec (game_ticks envs) m)).
Proof.
  intros Ht Hf. rewrite !notifications_exec_game_ticks, !length_app.
  destruct (ticks_lives envs (globals m')) as [_ Hn'].
  destruct (ticks_lives envs (globals m)) as [_ Hn].
  cbv zeta in Hn, Hn'. rewrite Hn, Hn'.
  unfold notifications, calls, latched, armed. rewrite Ht, Hf.
  reflexivity.
Qed.

(** X16.  Neither reset touches the failure detector.  A
    [game_reset_lives_left] or a [game_reset_score] between two runs of
    ticks changes no tick on which a life is taken: as many notifications
    are sent as without the reset.  A reset of the lives during an
    obstruction therefore costs no life for that obstruction. *)
Theorem resets_keep_detector (envs1 envs2 : list sensors) (g : game_state) :
  length
    (notifications
       (exec (game_ticks envs2) (exec game_reset_lives_left (ticks envs1 g))))
  = length (notifications (ticks (envs1 ++ envs2) g))
  /\ length
       (notifications
          (exec (game_ticks envs2) (exec game_reset_score (ticks envs1 g))))
     = length (notifications (ticks (envs1 ++ envs2) g))
  /\ (latched (globals (ticks envs1 g)) = true ->
      Forall (fun l => above l = false) (map adc_level envs2) ->
      lives_left
        (globals
           (exec (game_ticks envs2)
              (exec game_reset_lives_left (ticks envs1 g))))
      = uint32 INITIAL_LIVES).
Proof.
  assert (Happ : length (notifications (ticks (envs1 ++ envs2) g))
                 = length
                     (notifications
                        (exec (game_ticks envs2) (ticks envs1 g)))).
  { rewrite notifications_exec_game_ticks, ticks_app.
    unfold notifications at 1. unfold calls. cbn [trace].
    rewrite map_app, filter_app. reflexivity. }
  rewrite Happ.
  split; [|split].
  - apply notifications_count_after; destruct (ticks envs1 g); reflexivity.
  - apply notifications_count_after; destruct (ticks envs1 g); reflexivity.
  - intros Hla Hall. rewrite game_ticks_globals.
    set (g1 := globals (exec game_reset_lives_left (ticks envs1 g))).
    assert (Hla1 : latched g1 = true).
    { unfold g1. destruct (ticks envs1 g) as [g0 t0].
      destruct g0. exact Hla. }
    destruct (ticks_latched_not_above envs2 g1 Hla1 Hall) as (Hl & _ & _).
    rewrite Hl. unfold g1. destruct (ticks envs1 g) as [g0 t0].
    reflexivity.
Qed.

End GameCore.

(** ** Resets *)

(** C8.  [game_reset_score] sets the score to 0 whatever it was.
    [game_reset_lives_left] stores the macro INITIAL_LIVES as an
    [unsigned int]; [game_init] stores NUMBER_OF_LIVES, which is 3.  With
    INITIAL_LIVES the configured initial count the two agree, and for any
    value of the macro they agree exactly when it is 3 modulo 2^32.
    Neither reset touches anything else. *)
Theorem game_reset_restores
  (INITIAL_LIVES MOTOR_TIMER_FREQ : Z) (m m' : machine) :
  score (globals (exec game_reset_score m)) = 0
  /\ exec game_reset_score m
     = mk_machine (set_score 0 (globals m)) (trace m)
  /\ exec (game_reset_lives_left INITIAL_LIVES) m
     = mk_machine (set_lives_left (uint32 INITIAL_LIVES) (globals m))
         (trace m)
  /\ lives_left (globals (exec (game_init MOTOR_TIMER_FREQ) m'))
     = NUMBER_OF_LIVES
  /\ lives_left
       (globals (exec (game_reset_lives_left INITIAL_LIVES_configured) m))
     = lives_left (globals (exec (game_init MOTOR_TIMER_FREQ) m'))
  /\ (lives_left (globals (exec (game_reset_lives_left INITIAL_LIVES) m))
      = lives_left (globals (exec (game_init MOTOR_TIMER_FREQ) m'))
      <-> uint32 INITIAL_LIVES = NUMBER_OF_LIVES).
Proof.
  destruct m as [g t], m' as [g' t'].
  unfold game_reset_score, game_reset_lives_left, game_init,
    game_timer_init, exec, bind, modify, extern.
  cbn [globals trace fst snd score lives_left set_score set_lives_left].
  repeat split; intros H; exact H.
Qed.

(** ** The statements at concrete inputs *)

Lemma game_run_one_life_per_run_witness :
  (lives_left
     (globals (ticks 100 7 (map ir_only [500; 400; 0]) scenario_state)) = 2
   /\ length
        (notifications (ticks 100 7 (map ir_only [500; 400; 0]) scenario_state))
      = 1%nat)
  /\ lives_left
       (globals
          (ticks 100 7 (map ir_only [999; 1000; 3])
             (set_counting_flag 1 scenario_state))) = 3.
Proof.
  split.
  - destruct (game_run_one_life_per_run 100 7
                (map ir_only [500; 400; 0]) scenario_state)
      as (_ & _ & Hrun & _).
    destruct Hrun as (Hl & Hn & _).
    + reflexivity.
    + discriminate.
    + repeat constructor.
    + split; [exact Hl | exact Hn].
  - destruct (game_run_one_life_per_run 100 7
                (map ir_only [999; 1000; 3])
                (set_counting_flag 1 scenario_state))
      as (_ & _ & _ & Hlatched).
    destruct Hlatched as (Hl & _ & _).
    + reflexivity.
    + repeat constructor.
    + exact Hl.
Defined.

(** C1, as the specification words it, fails.  The levels 500, 1000, 500
    hold two runs of consecutive below-threshold ticks; the level 1000
    between them is not strictly above the threshold and does not re-arm
    the detector, so the second run takes no life: one life is lost, not
    two. *)
Lemma level_at_threshold_does_not_separate_runs :
  armed scenario_state = true
  /\ below_runs false (map adc_level (map ir_only [500; 1000; 500])) = 2%nat
  /\ lives_left
       (globals (ticks 100 7 (map ir_only [500; 1000]) scenario_state)) = 2
  /\ lives_left
       (globals (ticks 100 7 (map ir_only [500; 1000; 500]) scenario_state))
     = 2
  /\ ~ one_life_per_consecutive_run 100 7.
Proof.
  repeat split; try reflexivity.
  intros H.
  specialize (H (map ir_only [500; 1000; 500]) scenario_state eq_refl).
  vm_compute in H. discriminate H.
Qed.

Lemma game_run_increments_score_witness :
  score
    (globals
       (tick 100 7 (ir_only 500)
          (set_controller_select (CONTROLLER_SEL_other 9)
             (set_score 41 scenario_state)))) = 42
  /\ actuation_calls
       (tick 100 7 (ir_only 500)
          (set_controller_select (CONTROLLER_SEL_other 9)
             (set_score 41 scenario_state))) = [].
Proof.
  destruct (game_run_increments_score 100 7 (ir_only 500)
              (set_controller_select (CONTROLLER_SEL_other 9)
                 (set_score 41 scenario_state)))
    as (_ & Hexact & Hother & _).
  split.
  - apply Hexact.
    + unfold is_uint32. cbn. lia.
    + cbn. lia.
  - destruct (Hother 9 eq_refl) as (Hact & _). exact Hact.
Defined.

(** C3, as the specification words it, fails.  In the tick of the
    scenario with the level below the threshold, the log starts with the
    motor command, not with the detector's [adc_read], and the
    notification is sent with the score still at 0. *)
Lemma game_run_order_not_as_specified :
  calls (tick 100 7 (ir_only 500) scenario_state)
  = [motor_run_slider 80; servo_set_position 0; solenoid_run_button 0;
     adc_read 500;
     can_send {| id := 7; data_length := 1; data := [2] |} 0]
  /\ ~ detection_first (tick 100 7 (ir_only 500) scenario_state)
  /\ ~ score_before_notification scenario_state
        (tick 100 7 (ir_only 500) scenario_state).
Proof.
  split; [reflexivity|]. split.
  - intros (level & g & t & H). vm_compute in H. discriminate H.
  - intros H.
    specialize (H {| id := 7; data_length := 1; data := [2] |} 0
                  (set_counting_flag 1 (set_lives_left 2 scenario_state))).
    assert (Hin : In (can_send {| id := 7; data_length := 1; data := [2] |} 0,
                      set_counting_flag 1 (set_lives_left 2 scenario_state))
                    (trace (tick 100 7 (ir_only 500) scenario_state))).
    { vm_compute. do 4 right. left. reflexivity. }
    apply H in Hin. vm_compute in Hin. discriminate Hin.
Qed.

Lemma game_run_impossible_inverts_witness :
  motor_calls
    (tick 100 7 (ir_only 2000)
       (mk_game_state 0 3 0 SLIDER_POS_CTRL IMPOSSIBLE
          (mk_user_input_data (-30) 0 0 80 0 0)))
  = [motor_run_slider 20]
  /\ motor_calls
       (tick 100 7 (ir_only 2000)
          (mk_game_state 0 3 0 JOYSTICK_SPEED_CTRL IMPOSSIBLE
             (mk_user_input_data (-30) 0 0 80 0 0)))
     = [motor_run_joystick 30].
Proof.
  destruct (game_run_impossible_inverts 100 7 (ir_only 2000) 0 3 0 IMPOSSIBLE
              (mk_user_input_data (-30) 0 0 80 0 0))
    as (Hslider & Hjoystick & _ & Hsub & Hneg).
  cbv zeta in Hslider, Hjoystick.
  rewrite Hslider, Hjoystick.
  rewrite Hsub by (unfold is_int32; cbn; lia).
  rewrite Hneg by (unfold is_int32; cbn; lia).
  split; reflexivity.
Defined.

Lemma game_count_fails_strict_witness :
  detector_result 1000 (set_counting_flag 1 scenario_state) = 0
  /\ detector_step 1000 (set_counting_flag 1 scenario_state)
     = set_counting_flag 1 scenario_state
  /\ counting_flag (detector_step 1001 (set_counting_flag 1 scenario_state))
     = 0.
Proof.
  destruct (game_count_fails_strict 1000 (set_counting_flag 1 scenario_state))
    as (_ & _ & _ & _ & Heq).
  destruct (game_count_fails_strict 1001 (set_counting_flag 1 scenario_state))
    as (_ & _ & Hrearm & _).
  destruct Heq as (Hr & Hs); [reflexivity|].
  split; [exact Hr|]. split; [exact Hs|].
  apply Hrearm.
  - cbn. discriminate.
  - reflexivity.
Defined.

Lemma game_run_notifies_on_failure_witness :
  notifications (tick 100 7 (ir_only 500) scenario_state)
  = [can_send {| id := 7; data_length := 1; data := [2] |} 0]
  /\ notifications
       (tick 100 7 (ir_only 500) (set_counting_flag 1 scenario_state)) = []
  /\ notifications (tick 100 7 (ir_only 1000) scenario_state) = [].
Proof.
  destruct (game_run_notifies_on_failure 100 7 (ir_only 500) scenario_state)
    as (Hsent & _).
  destruct (game_run_notifies_on_failure 100 7 (ir_only 500)
              (set_counting_flag 1 scenario_state))
    as (_ & _ & _ & _ & Hlatched & _).
  destruct (game_run_notifies_on_failure 100 7 (ir_only 1000) scenario_state)
    as (_ & _ & _ & _ & _ & Hlevel).
  split; [exact Hsent|]. split.
  - apply Hlatched. cbn. discriminate.
  - apply Hlevel. vm_compute. discriminate.
Defined.

Lemma game_run_lives_underflow_witness :
  lives_left
    (globals (tick 100 7 (ir_only 500) (set_lives_left 0 scenario_state)))
  = 4294967295
  /\ notifications (tick 100 7 (ir_only 500) (set_lives_left 0 scenario_state))
     = [can_send {| id := 7; data_length := 1; data := [255] |} 0].
Proof.
  destruct (game_run_lives_underflow 100 7 (ir_only 500)
              (set_lives_left 0 scenario_state))
    as (Hl & _ & Hn).
  - reflexivity.
  - reflexivity.
  - reflexivity.
  - split; [exact Hl | exact Hn].
Defined.

Lemma game_init_keeps_counting_flag_witness :
  lives_left
    (globals
       (ticks 100 7 (map ir_only [500; 1000; 200])
          (globals
             (exec (game_init 50)
                (boot (set_counting_flag 1
                         (set_lives_left 1 scenario_state)))))))
  = 3
  /\ lives_left
       (globals
          (ticks 100 7
             (map ir_only [500; 1000; 200] ++ [ir_only 1500; ir_only 200])
             (globals
                (exec (game_init 50)
                   (boot (set_counting_flag 1
                            (set_lives_left 1 scenario_state)))))))
     = 2.
Proof.
  destruct (game_init_keeps_counting_flag 100 7 50
              (boot (set_counting_flag 1 (set_lives_left 1 scenario_state))))
    as (_ & _ & _ & Hlatched).
  cbv zeta in Hlatched.
  destruct (Hlatched ltac:(cbn; discriminate) (map ir_only [500; 1000; 200]))
    as (Hl & _ & Hnext).
  - repeat constructor.
  - split; [exact Hl|].
    apply (Hnext (ir_only 1500) (ir_only 200)); reflexivity.
Defined.

(** ** The further properties at concrete inputs *)

Lemma game_run_notifications_count_down_witness :
  notifications (ticks 100 7 (map ir_only [500; 2000; 500]) scenario_state)
  = [can_send {| id := 7; data_length := 1; data := [uint8 (3 - 1)] |} 0;
     can_send {| id := 7; data_length := 1; data := [uint8 (3 - 2)] |} 0].
Proof.
  destruct (game_run_notifications_count_down 100 7
              (map ir_only [500; 2000; 500]) scenario_state)
    as [Hlist Hexact].
  rewrite Hlist.
  replace (length
             (notifications
                (ticks 100 7 (map ir_only [500; 2000; 500]) scenario_state)))
    with 2%nat by reflexivity.
  cbn [seq map].
  rewrite (Hexact 1%nat) by (cbn; lia).
  rewrite (Hexact 2%nat) by (cbn; lia).
  reflexivity.
Defined.

Lemma failure_detection_ignores_mode_witness :
  notifications (ticks 100 7 (map ir_only [500; 2000; 400]) scenario_state)
  = notifications
      (ticks 100 7
         [mk_sensors 500 ACC_LEFT 1; mk_sensors 2000 ACC_RIGHT 0;
          mk_sensors 400 ACC_LEFT 0]
         (mk_game_state 99 3 0 MICROBIT_SPEED_CTRL IMPOSSIBLE
            (mk_user_input_data 5 6 7 8 1 1))).
Proof.
  apply (failure_detection_ignores_mode 100 7
           (map ir_only [500; 2000; 400])
           [mk_sensors 500 ACC_LEFT 1; mk_sensors 2000 ACC_RIGHT 0;
            mk_sensors 400 ACC_LEFT 0]
           scenario_state
           (mk_game_state 99 3 0 MICROBIT_SPEED_CTRL IMPOSSIBLE
              (mk_user_input_data 5 6 7 8 1 1)));
    reflexivity.
Defined.

Lemma actuation_ignores_lives_witness :
  dispatch_calls (tick 100 7 (ir_only 500) scenario_state)
  = dispatch_calls
      (tick 100 7 (ir_only 3000)
         (set_lives_left 0 (set_score 77 (set_counting_flag 1 scenario_state)))).
Proof.
  apply (actuation_ignores_lives 100 7 (ir_only 500) (ir_only 3000)
           scenario_state
           (set_lives_left 0
              (set_score 77 (set_counting_flag 1 scenario_state))));
    reflexivity.
Defined.

Lemma game_run_dispatch_by_mode_witness :
  In (servo_set_position 60)
    (dispatch_calls
       (tick 100 7 (ir_only 2000)
          (mk_game_state 0 3 0 JOYSTICK_SPEED_CTRL HARD
             (mk_user_input_data 0 0 0 80 0 0)))).
Proof.
  destruct (game_run_dispatch_by_mode 100 7 (ir_only 2000) 0 3 0 HARD
              (mk_user_input_data 0 0 0 80 0 0))
    as (_ & (c & _ & Hjoystick) & _ & _ & _ & Hexact).
  rewrite Hjoystick. right. left.
  rewrite Hexact by (unfold is_int32; cbn; lia).
  reflexivity.
Defined.

Lemma game_init_keeps_difficulty_witness :
  motor_calls
    (tick 100 7 (ir_only 2000)
       (globals
          (exec (game_init 50)
             (boot (set_difficulty_select IMPOSSIBLE scenario_state)))))
  = [motor_run_slider 20].
Proof.
  destruct (game_init_keeps_difficulty 100 7 50 (ir_only 2000)
              (boot (set_difficulty_select IMPOSSIBLE scenario_state)))
    as (_ & _ & _ & _ & _ & Hinverted).
  exact (Hinverted eq_refl eq_refl).
Defined.

Lemma game_get_score_as_int_witness :
  eval game_get_score (boot (set_score 2147483648 scenario_state))
  = -2147483648
  /\ eval game_get_score (boot (set_score 41 scenario_state)) = 41.
Proof.
  destruct (game_get_score_as_int
              (boot (set_score 2147483648 scenario_state)))
    as (_ & _ & Hhigh).
  destruct (game_get_score_as_int (boot (set_score 41 scenario_state)))
    as (_ & Hlow & _).
  split.
  - destruct Hhigh as [He _]; [cbn; lia | exact He].
  - apply Hlow. cbn. lia.
Defined.

Lemma game_get_score_counts_ticks_witness :
  eval game_get_score
    (exec (game_ticks 100 7 (map ir_only [500; 2000; 1000]))
       (exec game_reset_score (boot (set_score 41 scenario_state))))
  = 3.
Proof.
  apply (game_get_score_counts_ticks 100 7 (map ir_only [500; 2000; 1000])
           (boot (set_score 41 scenario_state))).
  cbn. lia.
Defined.

Lemma game_set_user_data_last_wins_witness :
  exec (game_set_user_data (fun b => b * 200 / 255 - 100)
          (fun b => b * 200 / 255 - 100) (fun b => b * 100 / 255)
          (fun b => b * 100 / 255) ([0; 255; 10; 255; 0; 1] ++ [9; 9]))
    (boot scenario_state)
  = exec (game_set_user_data (fun b => b * 200 / 255 - 100)
            (fun b => b * 200 / 255 - 100) (fun b => b * 100 / 255)
            (fun b => b * 100 / 255) [0; 255; 10; 255; 0; 1])
      (boot scenario_state).
Proof.
  destruct (game_set_user_data_last_wins (fun b => b * 200 / 255 - 100)
              (fun b => b * 200 / 255 - 100) (fun b => b * 100 / 255)
              (fun b => b * 100 / 255)
              [0; 255; 10; 255; 0; 1] [] [9; 9] (boot scenario_state))
    as (_ & _ & Hsix & _).
  apply Hsix. reflexivity.
Defined.

Lemma frame_drives_actuators_witness :
  dispatch_calls
    (tick 100 7 (ir_only 2000)
       (globals
          (exec (game_set_user_data (fun b => b * 200 / 255 - 100)
                   (fun b => b * 200 / 255 - 100) (fun b => b * 100 / 255)
                   (fun b => b * 100 / 255) [0; 255; 10; 255; 0; 1])
             (boot scenario_state))))
  = [motor_run_slider 100; servo_set_position (-100);
     solenoid_run_button 1].
Proof.
  destruct (frame_drives_actuators 100 7 (fun b => b * 200 / 255 - 100)
              (fun b => b * 200 / 255 - 100) (fun b => b * 100 / 255)
              (fun b => b * 100 / 255) 0 255 10 255 0 1 (ir_only 2000)
              (boot scenario_state))
    as [Hslider _].
  - reflexivity.
  - exact (Hslider eq_refl).
Defined.

Lemma statics_stay_ok_witness :
  statics_ok
    (globals
       (exec (run_commands 100 7 50 3 (fun b => b * 200 / 255 - 100)
                (fun b => b * 200 / 255 - 100) (fun b => b * 100 / 255)
                (fun b => b * 100 / 255)
                [do_game_init; do_game_run (ir_only 500);
                 do_game_set_user_data [300; 0; 0; 0; 0; 0];
                 do_game_reset_lives_left])
          (boot power_on)))
  /\ Forall (is_lives_record 7)
       (calls
          (exec (run_commands 100 7 50 3 (fun b => b * 200 / 255 - 100)
                   (fun b => b * 200 / 255 - 100) (fun b => b * 100 / 255)
                   (fun b => b * 100 / 255)
                   [do_game_init; do_game_run (ir_only 500);
                    do_game_set_user_data [300; 0; 0; 0; 0; 0];
                    do_game_reset_lives_left])
             (boot power_on))).
Proof.
  apply (statics_stay_ok 100 7 50 3 (fun b => b * 200 / 255 - 100)
           (fun b => b * 200 / 255 - 100) (fun b => b * 100 / 255)
           (fun b => b * 100 / 255)).
  unfold statics_ok, user_data_ok, is_uint32, is_int32. cbn. lia.
Defined.

Lemma resets_keep_detector_witness :
  lives_left
    (globals
       (exec (game_ticks 100 7 (map ir_only [400; 1000; 300]))
          (exec (game_reset_lives_left 3)
             (ticks 100 7 (map ir_only [2000; 500]) scenario_state))))
  = 3.
Proof.
  destruct (resets_keep_detector 100 7 3 (map ir_only [2000; 500])
              (map ir_only [400; 1000; 300]) scenario_state)
    as (_ & _ & Hlatched).
  apply Hlatched.
  - reflexivity.
  - repeat constructor.
Defined.

